(** * Zham AI: scoring, classification, caching and broadcast

    A shallow embedding of the scoring-and-caching core of the repository:

    - [DataProcessor]  (Zham Ai model/src/model-processor.py)
    - [Predictor]      (Zham Ai model/src/model-predictor.py)
    - [MetaService]    (backend/src/services/meta-service.py)
    - [Broadcast]      (backend/src/main.py, backend/src/utils/helpers-util.py)

    Conventions of the embedding.

    - Python numbers are exact rationals ([Q]); a Python float rounds after
      every operation, the model does not.  Equality of scores is [Qeq].
    - A Python [dict] with string keys is a [gmap string _];
      [d.get(k, dflt)] is [get d k dflt].
    - A raised exception is the [Raise] branch of [result]. *)

From Stdlib Require Import ZArith QArith Qminmax Qabs Qround Lqa Lia.
From stdpp Require Import base option gmap strings list sorting.

Local Open Scope Q_scope.

(** ** Python prelude *)

Module Py.

Inductive exn : Type :=
| KeyError (key : string)
| ValueError
| TypeError
| RuntimeError.

Inductive result (A : Type) : Type :=
| Ok (a : A)
| Raise (e : exn).
Arguments Ok {A} a.
Arguments Raise {A} e.

Definition bind {A B} (r : result A) (k : A -> result B) : result B :=
  match r with
  | Ok a => k a
  | Raise e => Raise e
  end.

(** [try: body / except Exception: handler] *)
Definition try_except {A} (body : result A) (handler : exn -> A) : A :=
  match body with
  | Ok a => a
  | Raise e => handler e
  end.

(** [d[k]] on a plain dict *)
Definition subscript {V} (d : gmap string V) (k : string) : result V :=
  match d !! k with
  | Some v => Ok v
  | None => Raise (KeyError k)
  end.

(** [d.get(k, dflt)] *)
Definition get {V} (d : gmap string V) (k : string) (dflt : V) : V :=
  default dflt (d !! k).

(** [np.mean] of a one-dimensional list: the sum, accumulated left to
    right, over the number of elements. *)
Definition mean (l : list Q) : Q :=
  fold_left Qplus l 0 / inject_Z (Z.of_nat (length l)).

(** [round(x)] to the nearest integer, ties to the even neighbour. *)
Definition round_half_even (q : Q) : Z :=
  let f := Qfloor q in
  let r := q - inject_Z f in
  match Qcompare r (1 # 2) with
  | Lt => f
  | Gt => (f + 1)%Z
  | Eq => if Z.even f then f else (f + 1)%Z
  end.

(** [round(x, 2)] *)
Definition round2 (q : Q) : Q :=
  inject_Z (round_half_even (q * 100)) / 100.

End Py.

(** ** DataProcessor *)

Module DataProcessor.
Import Py.

(** The dict [market_data] *)
Abbreviation market_data := (gmap string Q).
(** The dict [social_data]: its entry [sentiment_stats] is a dict again. *)
Abbreviation social_data := (gmap string (gmap string Q)).

Definition volume_score (data : market_data) : Q :=
  let volume_mcap_ratio :=
    get data "volume_24h" 0 / Qmax (get data "market_cap" 1) 1 in
  Qmin (volume_mcap_ratio * 100) 100.

Definition price_action_score (data : market_data) : Q :=
  let price_change := get data "price_change_24h" 0 in
  50 + price_change / 2.

Definition holder_score (data : market_data) : Q :=
  let holder_growth := get data "holder_growth_24h" 0 in
  Qmin (holder_growth * 10) 100.

Definition liquidity_score (data : market_data) : Q :=
  let liquidity_mcap_ratio :=
    get data "liquidity_usd" 0 / Qmax (get data "market_cap" 1) 1 in
  Qmin (liquidity_mcap_ratio * 200) 100.

Definition _calculate_market_score (data : market_data) : Q :=
  let scores := [] in
  let scores := scores ++ [volume_score data] in
  let scores := scores ++ [price_action_score data] in
  let scores := scores ++ [holder_score data] in
  let scores := scores ++ [liquidity_score data] in
  mean scores.

Definition _calculate_social_score (data : social_data) : Q :=
  let sentiment_stats := default ∅ (data !! "sentiment_stats") in
  let base_score := 50 + get sentiment_stats "avg_polarity" 0 * 50 in
  let subjectivity := get sentiment_stats "avg_subjectivity" 0.5 in
  let confidence_factor := 1 - Qabs (subjectivity - 0.5) * 0.5 in
  let consistency_factor :=
    1 - Qmin (get sentiment_stats "sentiment_std" 0) 0.5 in
  base_score * confidence_factor * consistency_factor.

Definition calculate_meta_score (market : market_data) (social : social_data) : Q :=
  let market_score := _calculate_market_score market in
  let social_score := _calculate_social_score social in
  market_score * 0.6 + social_score * 0.4.

(** [clamp lo hi x] *)
Definition clamp (lo hi x : Q) : Q := Qmax lo (Qmin x hi).

(** The meta score in the words of the specification: both scores divided
    by 100, weighted 0.6 / 0.4, the result clamped to [0,1]. *)
Definition spec_meta_score (market : market_data) (social : social_data) : Q :=
  clamp 0 1 (0.6 * (_calculate_market_score market / 100)
             + 0.4 * (_calculate_social_score social / 100)).

(** The market score in the words of the specification: the mean of the
    four sub-scores, each clamped to [0,100]. *)
Definition spec_market_score (data : market_data) : Q :=
  mean [clamp 0 100 (volume_score data);
        clamp 0 100 (price_action_score data);
        clamp 0 100 (holder_score data);
        clamp 0 100 (liquidity_score data)].

(** A valid snapshot: every numeric field is non-negative, except
    [price_change_24h], which is at least -100. *)
Definition valid_snapshot (data : market_data) : Prop :=
  forall k v, data !! k = Some v ->
    if decide (k = "price_change_24h"%string) then -100 <= v else 0 <= v.

(** Valid sentiment statistics: polarity in [-1,1], subjectivity in [0,1],
    a non-negative standard deviation. *)
Definition valid_social (data : social_data) : Prop :=
  let st := default ∅ (data !! "sentiment_stats") in
  -1 <= get st "avg_polarity" 0 <= 1 /\
  0 <= get st "avg_subjectivity" 0.5 <= 1 /\
  0 <= get st "sentiment_std" 0.

(** The snapshots used in the examples. *)
Definition snapshot_quiet : market_data :=
  list_to_map [("volume_24h"%string, 500); ("market_cap"%string, 1000);
               ("price_change_24h"%string, 10); ("holder_growth_24h"%string, 5);
               ("liquidity_usd"%string, 250)].

Definition snapshot_pump : market_data :=
  list_to_map [("volume_24h"%string, 1000); ("market_cap"%string, 1000);
               ("price_change_24h"%string, 800); ("holder_growth_24h"%string, 10);
               ("liquidity_usd"%string, 500)].

Definition social_mild : social_data :=
  {[ "sentiment_stats"%string :=
       list_to_map [("avg_polarity"%string, 0.5); ("avg_subjectivity"%string, 0.5);
                    ("sentiment_std"%string, 0)] ]}.

End DataProcessor.


(** ** Predictor *)

Module Predictor.
Import Py.

(** The dict [risk_factors]; a Python dict keeps insertion order, which is
    the order [np.mean(list(risk_factors.values()))] sums in. *)
Abbreviation factors := (list (string * Q)).

Definition values (d : factors) : list Q := map snd d.

(** The dict returned by [_assess_risk]. *)
Record risk_assessment : Type := {
  score : Q;
  level : string;
  factors_of : factors
}.

(** The chain [if risk_score < 20 ... elif ... else] of [_assess_risk]. *)
Definition risk_level_of (risk_score : Q) : string :=
  if Qlt_le_dec risk_score 20 then "low"
  else if Qlt_le_dec risk_score 50 then "moderate"
  else if Qlt_le_dec risk_score 80 then "high"
  else "very_high".

(** The body of the [try] block of [_assess_risk]. *)
Definition assess_risk_body (predictions market_data : gmap string Q)
  : result risk_assessment :=
  bind (subscript predictions "trend_confidence") (fun confidence =>
  let volume_mcap_ratio :=
    get market_data "volume_24h" 0 / Qmax (get market_data "market_cap" 1) 1 in
  let holder_count := get market_data "holder_count" 0 in
  let liquidity := get market_data "liquidity_usd" 0 in
  let risk_factors : factors :=
    [("confidence_risk"%string, 1 - confidence);
     ("volume_risk"%string, Qmax 0 (1 - volume_mcap_ratio));
     ("holder_risk"%string, Qmax 0 (1 - holder_count / 1000));
     ("liquidity_risk"%string, Qmax 0 (1 - liquidity / 100000))] in
  let risk_score := mean (values risk_factors) * 100 in
  let risk_level := risk_level_of risk_score in
  Ok {| score := risk_score; level := risk_level; factors_of := risk_factors |}).

(** The [except Exception] branch of [_assess_risk]. *)
Definition assess_risk_fallback : risk_assessment :=
  {| score := 100; level := "unknown"; factors_of := [] |}.

Definition _assess_risk (predictions market_data : gmap string Q) : risk_assessment :=
  try_except (assess_risk_body predictions market_data)
             (fun _ => assess_risk_fallback).

(** The dict [prediction] read by [validate_prediction]: each of its three
    entries may be absent. *)
Record prediction : Type := {
  trend_confidence : option Q;
  meta_score : option Q;
  risk_assessment_of : option (gmap string string)
}.

(** [x not in ['high', 'very_high']], where [x] is the result of
    [.get('level')]: [None] when the key is absent. *)
Definition not_in_high (x : option string) : bool :=
  match x with
  | None => true
  | Some l => negb (String.eqb l "high" || String.eqb l "very_high")
  end.

(** [prediction.get('risk_assessment', {}).get('level')] *)
Definition level_entry (p : prediction) : option string :=
  default ∅ (risk_assessment_of p) !! "level"%string.

Definition validate_prediction (p : prediction) (threshold : Q) : result bool :=
  match trend_confidence p with
  | None => Raise (KeyError "trend_confidence")
  | Some c =>
      Ok (Qle_bool threshold c
          && Qle_bool 50 (default 0 (meta_score p))
          && not_in_high (level_entry p))
  end.

(** The default value of the parameter [threshold]. *)
Definition default_threshold : Q := 0.8.

(** The inputs used in the examples. *)
Definition confident : gmap string Q := {[ "trend_confidence"%string := 0.9 ]}.

Definition liquid_market : gmap string Q :=
  list_to_map [("volume_24h"%string, 1000); ("market_cap"%string, 1000);
               ("holder_count"%string, 2000); ("liquidity_usd"%string, 200000)].

Definition thin_market : gmap string Q :=
  list_to_map [("volume_24h"%string, 0); ("market_cap"%string, 1000);
               ("holder_count"%string, 200); ("liquidity_usd"%string, 20000)].

Definition sound_prediction : prediction := {|
  trend_confidence := Some 0.9;
  meta_score := Some 60.75;
  risk_assessment_of := Some {[ "level"%string := "low"%string ]}
|}.

(** The same prediction with its meta score on the scale [0,1]. *)
Definition unit_scale_prediction : prediction := {|
  trend_confidence := Some 0.9;
  meta_score := Some 0.6075;
  risk_assessment_of := Some {[ "level"%string := "low"%string ]}
|}.

End Predictor.

(** ** MetaService *)

Module MetaService.
Import Py.

(** A [datetime] is a count of microseconds; a [timedelta] is the difference
    of two of them.  Python keeps a timedelta normalised as days, seconds
    (0 <= seconds < 86400) and microseconds (0 <= microseconds < 10^6), and
    the attribute [.seconds] reads the middle component. *)
Definition microseconds_per_second : Z := 1000000.
Definition seconds_per_day : Z := 86400.

Definition timedelta_days (delta : Z) : Z :=
  (delta / microseconds_per_second / seconds_per_day)%Z.

Definition timedelta_seconds (delta : Z) : Z :=
  ((delta / microseconds_per_second) mod seconds_per_day)%Z.

(** [timedelta(seconds=n)] and [timedelta(days=n)] *)
Definition of_seconds (n : Z) : Z := (n * microseconds_per_second)%Z.
Definition of_days (n : Z) : Z := of_seconds (n * seconds_per_day).

(** One element of the list [trends] (the dict [score]). *)
Record trend : Type := {
  name : string;
  percentage : Q;
  count : Z;
  volume_24h : Q;
  momentum : Q
}.

(** One element of a history list. *)
Record history_entry : Type := {
  h_timestamp : Z;
  h_percentage : Q;
  h_volume : Q
}.

(** The dict returned by [_categorize_trends]. *)
Record categorized : Type := {
  trending : list trend;
  rising : list trend;
  declining : list trend
}.

(** One value of [_cache]. *)
Record cache_entry : Type := {
  data : categorized;
  timestamp : Z
}.

(** The instance attributes.  [_known_metas] is a Python set; the list gives
    its members in the order the set iterates them. *)
Record service : Type := {
  _cache : gmap string cache_entry;
  _cache_expiry : Z;
  _meta_history : gmap string (list history_entry);
  _known_metas : list string
}.

(** [__init__] *)
Definition init : service := {|
  _cache := ∅;
  _cache_expiry := 300;
  _meta_history := ∅;
  _known_metas := ["ai"; "defi"; "gaming"; "meme"; "nft";
                   "metaverse"; "web3"; "dao"; "play2earn"; "gamefi"]%string
|}.

Definition set_cache (s : service) (c : gmap string cache_entry) : service :=
  {| _cache := c; _cache_expiry := _cache_expiry s;
     _meta_history := _meta_history s; _known_metas := _known_metas s |}.

Definition set_history (s : service) (h : gmap string (list history_entry)) : service :=
  {| _cache := _cache s; _cache_expiry := _cache_expiry s;
     _meta_history := h; _known_metas := _known_metas s |}.

Definition _is_cache_valid (s : service) (key : string) (now : Z) : bool :=
  match _cache s !! key with
  | Some entry =>
      let age := (now - timestamp entry)%Z in
      (timedelta_seconds age <? _cache_expiry s)%Z
  | None => false
  end.

(** [history[-1]] and [history[-2]] *)
Definition last_two (history : list history_entry)
  : option (history_entry * history_entry) :=
  match rev history with
  | recent :: previous :: _ => Some (recent, previous)
  | _ => None
  end.

Definition _calculate_momentum (s : service) (meta_name : string) : Q :=
  let history := get (_meta_history s) meta_name [] in
  if (length history <? 2)%nat then 0
  else
    match last_two history with
    | Some (recent, previous) =>
        round2 (h_percentage recent - h_percentage previous)
    | None => 0
    end.

(** [sorted(scores, key=lambda x: x['percentage'], reverse=True)]: a stable
    sort, elements of equal percentage keep their order. *)
Fixpoint insert_desc (t : trend) (l : list trend) : list trend :=
  match l with
  | [] => [t]
  | x :: l' =>
      if Qlt_le_dec (percentage t) (percentage x)
      then x :: insert_desc t l'
      else t :: x :: l'
  end.

Definition sorted_desc (scores : list trend) : list trend :=
  foldr insert_desc [] scores.

(** [sum(volumes.values()) or 1] *)
Definition total_volume_of (volumes : gmap string Q) : Q :=
  let total := fold_left Qplus (map snd (map_to_list volumes)) 0 in
  if Qeq_bool total 0 then 1 else total.

(** [counts] and [volumes] are [defaultdict]s: a missing key reads as 0.
    [score_of] is the dict [score] built for one meta, [append_score] one
    iteration of the loop over [_known_metas]. *)
Definition score_of (s : service) (counts : gmap string Z) (volumes : gmap string Q)
    (total_volume : Q) (meta : string) : trend :=
  let volume_percentage := get volumes meta 0 / total_volume * 100 in
  let momentum := _calculate_momentum s meta in
  {| name := meta;
     percentage := round2 volume_percentage;
     count := get counts meta 0%Z;
     volume_24h := get volumes meta 0;
     momentum := momentum |}.

Definition append_score (s : service) (counts : gmap string Z) (volumes : gmap string Q)
    (total_volume : Q) (scores : list trend) (meta : string) : list trend :=
  if (0 <? get counts meta 0%Z)%Z
  then scores ++ [score_of s counts volumes total_volume meta]
  else scores.

Definition _calculate_trend_scores (s : service)
    (counts : gmap string Z) (volumes : gmap string Q) : list trend :=
  let total_volume := total_volume_of volumes in
  let scores :=
    foldl (append_score s counts volumes total_volume) [] (_known_metas s) in
  sorted_desc scores.

Definition is_trending (t : trend) : bool := Qle_bool 10 (percentage t).
Definition is_rising (t : trend) : bool :=
  Qle_bool 5 (percentage t) && negb (Qle_bool 10 (percentage t)).
Definition is_declining (t : trend) : bool :=
  negb (Qle_bool 0 (momentum t)).

Definition _categorize_trends (trends : list trend) : categorized := {|
  trending := take 5 (List.filter is_trending trends);
  rising := take 4 (List.filter is_rising trends);
  declining := take 4 (List.filter is_declining trends)
|}.

(** One iteration of the loop of [_update_meta_history]. *)
Definition record_trend (timestamp : Z)
    (history : gmap string (list history_entry)) (t : trend)
  : gmap string (list history_entry) :=
  let appended :=
    get history (name t) [] ++
      [{| h_timestamp := timestamp;
          h_percentage := percentage t;
          h_volume := volume_24h t |}] in
  let cutoff := (timestamp - of_days 7)%Z in
  <[name t := List.filter (fun h => (cutoff <? h_timestamp h)%Z) appended]> history.

Definition _update_meta_history (s : service) (trends : list trend) (now : Z) : service :=
  set_history s (foldl (record_trend now) (_meta_history s) trends).

(** *** [get_meta_trends]

    The coroutine awaits [_fetch_token_data], [_analyze_meta_occurrences],
    [_analyze_meta_volumes] and [_calculate_trend_scores], four coroutines of
    the class none of which awaits anything: a call runs from its start to
    its return in one turn of the event loop and never yields between the
    check of the cache and the store.  What the fetch and the two analysis
    passes deliver is summarised as the pair of [counts] and [volumes] handed
    to [_calculate_trend_scores]. *)

Definition cache_key : string := "meta_trends".

Record fetched : Type := {
  meta_counts : gmap string Z;
  meta_volumes : gmap string Q
}.

(** The check of the cache at the start of the body: the cached value when
    the entry is valid at [now], nothing on a miss. *)
Definition get_meta_trends_begin (s : service) (now : Z) : option categorized :=
  if _is_cache_valid s cache_key now
  then data <$> (_cache s !! cache_key)
  else None.

(** The body after a miss, for the fetched data [f]; [t_hist] and [t_store]
    are the two later readings of the clock. *)
Definition get_meta_trends_finish (s : service) (f : fetched) (t_hist t_store : Z)
  : categorized * service :=
  let trends := _calculate_trend_scores s (meta_counts f) (meta_volumes f) in
  let result := _categorize_trends trends in
  let s := _update_meta_history s trends t_hist in
  let s := set_cache s (<[cache_key := {| data := result; timestamp := t_store |}]> (_cache s)) in
  (result, s).

(** One call, whole: the result, the service after it, and whether the
    computation (fetch, analysis, scores) took place. *)
Definition get_meta_trends (s : service) (now : Z) (f : fetched) (t_hist t_store : Z)
  : categorized * service * bool :=
  match get_meta_trends_begin s now with
  | Some r => (r, s, false)
  | None =>
      let '(r, s') := get_meta_trends_finish s f t_hist t_store in
      (r, s', true)
  end.

(** *** Callers on the event loop *)

Inductive task : Type :=
| Created
| Returned (r : categorized).

(** The service shared by the callers, the number of computations made so
    far, and the callers. *)
Record world : Type := {
  svc : service;
  fetch_calls : nat;
  tasks : list task
}.

(** The event loop runs caller [i]: its call of [get_meta_trends] reads the
    clock as [now], and on a miss is handed [f] by the fetch and reads the
    clock as [t_hist] and [t_store]. *)
Inductive event : Type :=
| Run (i : nat) (now : Z) (f : fetched) (t_hist t_store : Z).

(** One turn of the event loop, in which a caller runs to its return;
    [None] when the caller is not waiting to run. *)
Definition step (w : world) (e : event) : option world :=
  match e with
  | Run i now f t_hist t_store =>
      match tasks w !! i with
      | Some Created =>
          let '(r, s, computed) := get_meta_trends (svc w) now f t_hist t_store in
          Some {| svc := s;
                  fetch_calls := if computed then S (fetch_calls w) else fetch_calls w;
                  tasks := <[i := Returned r]> (tasks w) |}
      | _ => None
      end
  end.

Fixpoint run (w : world) (schedule : list event) : option world :=
  match schedule with
  | [] => Some w
  | e :: rest =>
      match step w e with
      | Some w' => run w' rest
      | None => None
      end
  end.

(** [n] callers of [get_meta_trends] on the service [s], none started. *)
Definition callers (s : service) (n : nat) : world :=
  {| svc := s; fetch_calls := 0; tasks := replicate n Created |}.

(** *** The words of the specification *)

(** The momentum of a key: the value of its most recent entry minus the value
    of the one before, 0 with fewer than two entries. *)
Definition spec_momentum (history : list history_entry) : Q :=
  match rev history with
  | recent :: previous :: _ => h_percentage recent - h_percentage previous
  | _ => 0
  end.

(** The declining bucket: momentum below 0, sorted by ascending momentum,
    capped to 4. *)
Fixpoint insert_by_momentum (t : trend) (l : list trend) : list trend :=
  match l with
  | [] => [t]
  | x :: l' =>
      if Qlt_le_dec (momentum x) (momentum t)
      then x :: insert_by_momentum t l'
      else t :: x :: l'
  end.

Definition spec_declining (trends : list trend) : list trend :=
  take 4 (foldr insert_by_momentum [] (List.filter is_declining trends)).

(** Descending percentage, ascending momentum. *)
Definition pct_ge (a b : trend) : Prop := percentage b <= percentage a.
Definition momentum_le (a b : trend) : Prop := momentum a <= momentum b.

(** The category names of a bucket. *)
Definition names (l : list trend) : list string := map name l.

(** Disjoint membership: no category is in two buckets. *)
Definition disjoint_buckets (c : categorized) : Prop :=
  forall n,
    ~ (n ∈ names (trending c) /\ n ∈ names (rising c)) /\
    ~ (n ∈ names (trending c) /\ n ∈ names (declining c)) /\
    ~ (n ∈ names (rising c) /\ n ∈ names (declining c)).

(** A number with at most two decimals. *)
Definition two_decimals (q : Q) : Prop := exists z : Z, q == inject_Z z / 100.

(** The services that [__init__] and completed runs of [get_meta_trends]
    produce. *)
Inductive reachable : service -> Prop :=
| reachable_init : reachable init
| reachable_finish (s : service) (f : fetched) (t_hist t_store : Z) :
    reachable s ->
    reachable (get_meta_trends_finish s f t_hist t_store).2.

(** Every stored percentage has at most two decimals. *)
Definition history_two_decimals (h : gmap string (list history_entry)) : Prop :=
  forall k l, h !! k = Some l -> Forall (fun e => two_decimals (h_percentage e)) l.

(** *** The inputs used in the examples *)

Definition mk_trend (n : string) (p m : Q) : trend :=
  {| name := n; percentage := p; count := 1; volume_24h := p * 10; momentum := m |}.

Definition example_trends : list trend :=
  [mk_trend "ai" 30 2; mk_trend "meme" 7 (-1); mk_trend "gaming" 3 (-5)].

Definition unsorted_trends : list trend :=
  [mk_trend "defi" 12 0; mk_trend "ai" 30 2].

Definition fetch_10 : fetched :=
  {| meta_counts := list_to_map [("ai"%string, 1%Z); ("defi"%string, 1%Z)];
     meta_volumes := list_to_map [("ai"%string, 10); ("defi"%string, 90)] |}.

Definition fetch_15 : fetched :=
  {| meta_counts := list_to_map [("ai"%string, 1%Z); ("defi"%string, 1%Z)];
     meta_volumes := list_to_map [("ai"%string, 15); ("defi"%string, 85)] |}.

(** Two completed refreshes, one minute apart. *)
Definition after_two_refreshes : service :=
  (get_meta_trends_finish
     (get_meta_trends_finish init fetch_10 0 0).2
     fetch_15 (of_seconds 60) (of_seconds 60)).2.

(** The clock readings and the fetched data of one call. *)
Record call : Type := {
  c_now : Z;
  c_fetched : fetched;
  c_hist : Z;
  c_store : Z
}.

(** Callers run in the order of their creation, as the ready queue of the
    event loop has them. *)
Definition in_turn (offset : nat) (calls : list call) : list event :=
  imap (fun i c => Run (offset + i) (c_now c) (c_fetched c) (c_hist c) (c_store c))
       calls.

(** Two callers issued together: the second runs as soon as the first has
    returned. *)
Definition two_calls : list call :=
  [{| c_now := 0; c_fetched := fetch_10; c_hist := 1; c_store := 2 |};
   {| c_now := 3; c_fetched := fetch_15; c_hist := 4; c_store := 5 |}].

(** One caller completes at time 0; a second caller starts one day and ten
    seconds later. *)
Definition day_later : Z := of_seconds 86410.

Definition day_later_schedule : list event :=
  [Run 0 0 fetch_10 0 0; Run 1 day_later fetch_15 day_later day_later].

(** The same with the second caller after six minutes. *)
Definition six_minutes_schedule : list event :=
  [Run 0 0 fetch_10 0 0;
   Run 1 (of_seconds 360) fetch_15 (of_seconds 360) (of_seconds 360)].

End MetaService.

(** ** Broadcast to the subscribers *)

Module Broadcast.
Import Py.

(** A websocket is known by a number. *)
Abbreviation websocket := nat.

(** The manager's collection of connections, and the record of the
    subscribers the message reached.  For [ConnectionManager] the collection
    is a Python set, listed here in the order the set iterates it. *)
Record manager : Type := {
  active_connections : list websocket;
  delivered : list websocket
}.

Section Send.

(** [healthy c] tells whether [c.send_json(message)] succeeds. *)
Variable healthy : websocket -> bool.

Definition send_json (c : websocket) (m : manager) : result manager :=
  if healthy c
  then Ok {| active_connections := active_connections m;
             delivered := delivered m ++ [c] |}
  else Raise RuntimeError.

(** [list.remove(x)]: drops the first occurrence, [ValueError] if there is
    none. *)
Fixpoint list_remove (x : websocket) (l : list websocket) : option (list websocket) :=
  match l with
  | [] => None
  | y :: l' =>
      if Nat.eqb x y then Some l'
      else cons y <$> list_remove x l'
  end.

(** [WSConnectionManager.disconnect], a plain [def]: it returns [None]. *)
Definition ws_disconnect (c : websocket) (m : manager) : result manager :=
  match list_remove c (active_connections m) with
  | Some l => Ok {| active_connections := l; delivered := delivered m |}
  | None => Raise ValueError
  end.

(** [ConnectionManager.disconnect], a plain [def] too; [set.remove(x)]
    raises [KeyError] when [x] is not a member. *)
Definition disconnect (c : websocket) (m : manager) : result manager :=
  match list_remove c (active_connections m) with
  | Some l => Ok {| active_connections := l; delivered := delivered m |}
  | None => Raise (KeyError "websocket")
  end.

(** [await None]: [None] is not awaitable. *)
Definition await_None : result unit := Raise TypeError.

(** The handler [await self.disconnect(connection)]: the call is evaluated
    first, then its value, [None], is awaited. *)
Definition handler (disc : websocket -> manager -> result manager)
    (c : websocket) (m : manager) : result unit * manager :=
  match disc c m with
  | Ok m' => (await_None, m')
  | Raise e => (Raise e, m)
  end.

(** [WSConnectionManager.broadcast]: a [for] over a list reads the element
    at the next index of the list as it is at that moment. *)
Fixpoint ws_broadcast_from (fuel i : nat) (m : manager) : result unit * manager :=
  match fuel with
  | O => (Ok tt, m)
  | S fuel' =>
      match active_connections m !! i with
      | None => (Ok tt, m)
      | Some c =>
          match send_json c m with
          | Ok m' => ws_broadcast_from fuel' (S i) m'
          | Raise _ =>
              match handler ws_disconnect c m with
              | (Ok _, m') => ws_broadcast_from fuel' (S i) m'
              | (Raise e, m') => (Raise e, m')
              end
          end
      end
  end.

Definition ws_broadcast (m : manager) : result unit * manager :=
  ws_broadcast_from (length (active_connections m)) 0 m.

(** [ConnectionManager.broadcast]: a [for] over a set walks the members as
    they were at the start, and raises [RuntimeError] at its next step once
    the size of the set has changed. *)
Fixpoint broadcast_over (pending : list websocket) (size0 : nat) (m : manager)
  : result unit * manager :=
  if negb (Nat.eqb (length (active_connections m)) size0)
  then (Raise RuntimeError, m)
  else
    match pending with
    | [] => (Ok tt, m)
    | c :: rest =>
        match send_json c m with
        | Ok m' => broadcast_over rest size0 m'
        | Raise _ =>
            match handler disconnect c m with
            | (Ok _, m') => broadcast_over rest size0 m'
            | (Raise e, m') => (Raise e, m')
            end
        end
    end.

Definition broadcast (m : manager) : result unit * manager :=
  broadcast_over (active_connections m) (length (active_connections m)) m.

End Send.

(** The claim about a broadcast with one failing subscriber [bad]: [bad] is
    removed, every other subscriber received the message, nothing is
    raised. *)
Definition isolates_failure
    (bcast : (websocket -> bool) -> manager -> result unit * manager)
    (subscribers : list websocket) (bad : websocket) : Prop :=
  let healthy c := negb (Nat.eqb c bad) in
  let '(r, m) := bcast healthy {| active_connections := subscribers; delivered := [] |} in
  r = Ok tt /\
  (bad ∉ active_connections m) /\
  (forall c, c ∈ subscribers -> c <> bad -> c ∈ delivered m).

(** Three subscribers, the second of which fails. *)
Definition three_subscribers : manager :=
  {| active_connections := [1; 2; 3]%nat; delivered := [] |}.

Definition all_but_2 (c : websocket) : bool := negb (Nat.eqb c 2).

End Broadcast.


(** ** Helpers: data processing *)

Module Helpers.

(** What a helper call comes to: a value, or the [ZeroDivisionError] of a
    division by a zero window. *)
Inductive outcome (A : Type) : Type :=
| Returns (a : A)
| ZeroDivisionError.
Arguments Returns {A} a.
Arguments ZeroDivisionError {A}.

(** [sum(l)] *)
Definition sum (l : list Q) : Q := fold_left Qplus l 0.

(** [data[i:i+window]] for indices that are not negative. *)
Definition slice (data : list Q) (i window : nat) : list Q :=
  take window (drop i data).

(** [moving_average], for a window that is not negative.  The loop runs over
    [range(len(data) - window + 1)], which is never empty, so a zero window
    divides by zero in the first iteration. *)
Definition moving_average (data : list Q) (window : nat) : outcome (list Q) :=
  if (length data <? window)%nat then Returns data
  else
    match window with
    | O => ZeroDivisionError
    | S _ =>
        Returns (map (fun i => sum (slice data i window) / inject_Z (Z.of_nat window))
                     (seq 0 (length data - window + 1)))
    end.

(** The loop of [exponential_moving_average]; [prev] is [ema[-1]]. *)
Fixpoint ema_loop (multiplier prev : Q) (prices : list Q) : list Q :=
  match prices with
  | [] => []
  | price :: rest =>
      let next := (price - prev) * multiplier + prev in
      next :: ema_loop multiplier next rest
  end.

(** [exponential_moving_average], for a window that is not negative. *)
Definition exponential_moving_average (data : list Q) (window : nat)
  : outcome (list Q) :=
  if (length data <? window)%nat then Returns data
  else
    match window with
    | O => ZeroDivisionError
    | S _ =>
        let first := sum (take window data) / inject_Z (Z.of_nat window) in
        let multiplier := 2 / inject_Z (Z.of_nat window + 1) in
        Returns (first :: ema_loop multiplier first (drop window data))
    end.

(** The call returns a list with the values of [l]. *)
Definition returns_values (o : outcome (list Q)) (l : list Q) : Prop :=
  match o with
  | Returns r => Forall2 Qeq r l
  | ZeroDivisionError => False
  end.

End Helpers.

(** ** Helpers: RateLimiter *)

Module RateLimiter.

(** The instance attributes; times are seconds. *)
Record rate_limiter : Type := {
  limit : Z;
  window : Q;
  requests : gmap string (list Q)
}.

(** [__init__] *)
Definition init (limit window : Z) : rate_limiter :=
  {| limit := limit; window := inject_Z window; requests := ∅ |}.

Definition set_requests (rl : rate_limiter) (r : gmap string (list Q)) : rate_limiter :=
  {| limit := limit rl; window := window rl; requests := r |}.

(** [req_time > cutoff] *)
Definition after (cutoff req_time : Q) : bool := negb (Qle_bool req_time cutoff).

(** What [_cleanup] leaves of one key: the recent requests, or nothing when
    none is recent ([del self.requests[key]]). *)
Definition recent (cutoff : Q) (times : list Q) : option (list Q) :=
  match List.filter (after cutoff) times with
  | [] => None
  | kept => Some kept
  end.

Definition _cleanup (rl : rate_limiter) (now : Q) : rate_limiter :=
  let cutoff := now - window rl in
  set_requests rl (omap (recent cutoff) (requests rl)).

(** [check_limit], with the reading [now] of the clock. *)
Definition check_limit (rl : rate_limiter) (key : string) (now : Q)
  : bool * rate_limiter :=
  let rl := _cleanup rl now in
  let reqs :=
    match requests rl !! key with
    | Some l => requests rl
    | None => <[key := []]> (requests rl)
    end in
  let l := Py.get reqs key [] ++ [now] in
  ((Z.of_nat (length l) <=? limit rl)%Z, set_requests rl (<[key := l]> reqs)).

(** A run of calls for one key, at the given times. *)
Fixpoint check_all (rl : rate_limiter) (key : string) (times : list Q)
  : list bool * rate_limiter :=
  match times with
  | [] => ([], rl)
  | now :: rest =>
      let '(ok, rl) := check_limit rl key now in
      let '(oks, rl) := check_all rl key rest in
      (ok :: oks, rl)
  end.

(** Any two of the times are less than [w] apart. *)
Definition within_window (w : Q) (times : list Q) : Prop :=
  forall a b, a ∈ times -> b ∈ times -> b - w < a.

(** The requests recorded for a key. *)
Definition recorded (rl : rate_limiter) (key : string) : list Q :=
  Py.get (requests rl) key [].

End RateLimiter.

(** ** Connections: connect, disconnect and the websocket endpoint *)

Module Connections.
Import Py Broadcast.

(** [WSConnectionManager.connect], once [websocket.accept()] has returned. *)
Definition ws_connect (c : websocket) (m : manager) : manager :=
  {| active_connections := active_connections m ++ [c];
     delivered := delivered m |}.

(** How the receive loop of [websocket_endpoint] ends: with
    [WebSocketDisconnect], whose handler calls [manager.disconnect] before
    the [break], or with another exception, whose handler only logs. *)
Inductive loop_exit : Type :=
| ClientDisconnected
| HandlerError.

(** From the end of the receive loop of [websocket_endpoint] to its return:
    the handler of the loop, then the [finally] block with its own
    [manager.disconnect(websocket)]. *)
Definition endpoint_exit (how : loop_exit) (c : websocket) (m : manager)
  : result manager :=
  match how with
  | ClientDisconnected => bind (disconnect c m) (fun m' => disconnect c m')
  | HandlerError => disconnect c m
  end.

(** One pass of the loop of [periodic_update], up to the sleep: the three
    broadcasts of the [try] block; an exception out of one of them skips the
    rest of the block and is logged by the handler. *)
Definition tick (healthy : websocket -> bool) (m : manager) : manager :=
  match broadcast healthy m with
  | (Raise _, m1) => m1
  | (Ok _, m1) =>
      match broadcast healthy m1 with
      | (Raise _, m2) => m2
      | (Ok _, m2) => (broadcast healthy m2).2
      end
  end.

End Connections.

(** ** MetaService: views of the history *)

Module History.
Import Py MetaService.

(** The history list of a key, empty for a key without one. *)
Definition history_of (s : service) (key : string) : list history_entry :=
  get (_meta_history s) key [].

(** The entry [_update_meta_history] appends for a trend. *)
Definition new_entry (now : Z) (t : trend) : history_entry :=
  {| h_timestamp := now; h_percentage := percentage t; h_volume := volume_24h t |}.

(** The entries younger than seven days at [now]. *)
Definition kept (now : Z) (l : list history_entry) : list history_entry :=
  List.filter (fun h => (now - of_days 7 <? h_timestamp h)%Z) l.

(** No volume is negative. *)
Definition volumes_nonneg (volumes : gmap string Q) : Prop :=
  forall k v, volumes !! k = Some v -> 0 <= v.

End History.

(** ** Predictor: the result of [predict] *)

Module Pipeline.
Import Py DataProcessor Predictor.

(** [predict], from the return of [self.model.predict] on: the entries of
    the model's [predictions], the entry [meta_score], and the entry
    [risk_assessment] added last, as [validate_prediction] reads them. *)
Definition predict_result (predictions : gmap string Q)
    (market : market_data) (social : social_data) : prediction :=
  {| trend_confidence := predictions !! "trend_confidence"%string;
     meta_score := Some (calculate_meta_score market social);
     risk_assessment_of :=
       Some {[ "level"%string := level (_assess_risk predictions market) ]} |}.

(** The four risk factors of [_assess_risk] for a confidence [c]. *)
Definition volume_risk (market : gmap string Q) : Q :=
  Qmax 0 (1 - get market "volume_24h" 0 / Qmax (get market "market_cap" 1) 1).
Definition holder_risk (market : gmap string Q) : Q :=
  Qmax 0 (1 - get market "holder_count" 0 / 1000).
Definition liquidity_risk (market : gmap string Q) : Q :=
  Qmax 0 (1 - get market "liquidity_usd" 0 / 100000).

(** The value of a field is not negative. *)
Definition field_nonneg (market : gmap string Q) (k : string) : Prop :=
  0 <= get market k 0.

(** A market without volume, holders and liquidity. *)
Definition dead_market : gmap string Q :=
  list_to_map [("volume_24h"%string, 0); ("market_cap"%string, 1000);
               ("holder_count"%string, 0); ("liquidity_usd"%string, 0)].

End Pipeline.

(** ** MetaService: the analysis of the fetched tokens *)

Module Analysis.
Import Py MetaService.

(** A Python [str] whose characters are below U+0100 is a [string], one
    character per code point.  On these, [str.lower] moves A-Z and the
    capital letters U+00C0 to U+00DE (the sign U+00D7 apart) up by 32 and
    leaves the rest. *)
Definition lower_char (c : Ascii.ascii) : Ascii.ascii :=
  let n := Ascii.nat_of_ascii c in
  if ((65 <=? n) && (n <=? 90))
     || ((192 <=? n) && (n <=? 222) && negb (n =? 215))
  then Ascii.ascii_of_nat (n + 32)
  else c.

Fixpoint lower (s : string) : string :=
  match s with
  | EmptyString => EmptyString
  | String c rest => String (lower_char c) (lower rest)
  end.

(** [needle in hay] *)
Fixpoint contains (needle hay : string) : bool :=
  String.prefix needle hay
  || match hay with
     | EmptyString => false
     | String _ rest => contains needle rest
     end.

(** One element of [token_data]: a dict in which each of the entries read
    here may be absent. *)
Record token : Type := {
  t_name : option string;
  t_description : option string;
  t_volume_24h : option Q
}.

(** [f"{token['name']} {token.get('description', '')}".lower()] *)
Definition text_of (tok : token) : result string :=
  match t_name tok with
  | None => Raise (KeyError "name")
  | Some n => Ok (lower (n ++ " " ++ default "" (t_description tok)))
  end.

(** [occurrences[meta] += 1] under [if meta in text], on a
    [defaultdict(int)]. *)
Definition count_meta (text : string) (occurrences : gmap string Z) (meta : string)
  : gmap string Z :=
  if contains meta text
  then <[meta := (get occurrences meta 0 + 1)%Z]> occurrences
  else occurrences.

(** The loop over the tokens in the [try] block of
    [_analyze_meta_occurrences]. *)
Fixpoint occurrences_loop (metas : list string) (tokens : list token)
    (occurrences : gmap string Z) : result (gmap string Z) :=
  match tokens with
  | [] => Ok occurrences
  | tok :: rest =>
      bind (text_of tok) (fun text =>
        occurrences_loop metas rest (foldl (count_meta text) occurrences metas))
  end.

Definition _analyze_meta_occurrences (s : service) (tokens : list token)
  : gmap string Z :=
  try_except (occurrences_loop (_known_metas s) tokens ∅) (fun _ => ∅).

(** [volumes[meta] += volume] under [if meta in text], on a
    [defaultdict(float)]. *)
Definition add_volume (text : string) (volume : Q) (volumes : gmap string Q)
    (meta : string) : gmap string Q :=
  if contains meta text
  then <[meta := get volumes meta 0 + volume]> volumes
  else volumes.

Fixpoint volumes_loop (metas : list string) (tokens : list token)
    (volumes : gmap string Q) : result (gmap string Q) :=
  match tokens with
  | [] => Ok volumes
  | tok :: rest =>
      bind (text_of tok) (fun text =>
        let volume := default 0 (t_volume_24h tok) in
        volumes_loop metas rest (foldl (add_volume text volume) volumes metas))
  end.

Definition _analyze_meta_volumes (s : service) (tokens : list token)
  : gmap string Q :=
  try_except (volumes_loop (_known_metas s) tokens ∅) (fun _ => ∅).

(** [_fetch_token_data] as the repository has it. *)
Definition _fetch_token_data : list token := [].

(** What the fetch and the two analysis passes of [get_meta_trends] hand to
    [_calculate_trend_scores]. *)
Definition analysed (s : service) (tokens : list token) : fetched :=
  {| meta_counts := _analyze_meta_occurrences s tokens;
     meta_volumes := _analyze_meta_volumes s tokens |}.

(** [get_meta_trends] on a cache miss, for the tokens the fetch returned. *)
Definition get_meta_trends_miss (s : service) (tokens : list token)
    (t_hist t_store : Z) : categorized * service :=
  get_meta_trends_finish s (analysed s tokens) t_hist t_store.

(** [meta in text] for the text of a token; no match for a token without a
    name. *)
Definition mentions (meta : string) (tok : token) : bool :=
  match text_of tok with
  | Ok text => contains meta text
  | Raise _ => false
  end.

Definition named (tok : token) : Prop := is_Some (t_name tok).

(** The buckets without a member. *)
Definition no_trends : categorized :=
  {| trending := []; rising := []; declining := [] |}.

(** The members of the three buckets. *)
Definition members (c : categorized) : list trend :=
  trending c ++ rising c ++ declining c.

(** Tokens for the examples. *)
Definition chain_token : token :=
  {| t_name := Some "BlockChain Capital"%string; t_description := None;
     t_volume_24h := Some 500 |}.

Definition game_token : token :=
  {| t_name := Some "Pixel Quest"%string;
     t_description := Some "A GameFi and NFT playground"%string;
     t_volume_24h := Some 1500 |}.

Definition nameless_token : token :=
  {| t_name := None; t_description := Some "ai"%string; t_volume_24h := Some 1 |}.

End Analysis.
(** * Properties *)

(** ** Arithmetic of the prelude *)

Module PyFacts.
Import Py.

Lemma mean4 (a b c d : Q) : mean [a; b; c; d] == (a + b + c + d) / 4.
Proof. unfold mean. simpl. field. Qed.

(** Division by a literal, in the form [lra] reads. *)
Lemma div_const (x : Q) (c : positive) : x / (Zpos c # 1) == x * (1 # c).
Proof. unfold Qdiv, Qinv. simpl. reflexivity. Qed.

Lemma div_nonneg (x y : Q) : 0 <= x -> 0 < y -> 0 <= x / y.
Proof. intros Hx Hy. apply Qle_shift_div_l; [exact Hy | lra]. Qed.

Lemma max_one_pos (x : Q) : 0 < Qmax x 1.
Proof. pose proof (Q.le_max_r x 1). lra. Qed.

Lemma min_cap (x c : Q) : 0 <= x -> 0 <= c -> 0 <= Qmin x c <= c.
Proof.
  intros Hx Hc. split.
  - apply Q.min_glb; assumption.
  - apply Q.le_min_r.
Qed.

(** [lra] reads a dict access as an atom once it is behind a variable. *)
Ltac name_gets :=
  repeat match goal with
  | |- context [@get Q ?d ?k ?v] =>
      let x := fresh "x" in
      let E := fresh "E" in
      remember (@get Q d k v) as x eqn:E; clear E
  end.

Lemma get_lookup {V} (d : gmap string V) (k : string) (dflt : V) :
  get d k dflt = match d !! k with Some v => v | None => dflt end.
Proof. unfold get. destruct (d !! k); reflexivity. Qed.

End PyFacts.

(** ** DataProcessor *)

Module DataProcessorFacts.
Import Py PyFacts DataProcessor.

Example market_quiet : _calculate_market_score snapshot_quiet == 51.25.
Proof. vm_compute. reflexivity. Qed.

Example social_mild_score : _calculate_social_score social_mild == 75.
Proof. vm_compute. reflexivity. Qed.

Example meta_quiet : calculate_meta_score snapshot_quiet social_mild == 60.75.
Proof. vm_compute. reflexivity. Qed.

Example market_pump : _calculate_market_score snapshot_pump == 187.5.
Proof. vm_compute. reflexivity. Qed.

Example price_action_pump : price_action_score snapshot_pump == 450.
Proof. vm_compute. reflexivity. Qed.

Lemma valid_snapshot_list (l : list (string * Q)) :
  forallb (fun kv => if decide (kv.1 = "price_change_24h"%string)
                     then Qle_bool (-100) kv.2 else Qle_bool 0 kv.2) l = true ->
  valid_snapshot (list_to_map l).
Proof.
  intros Hall k v Hk.
  apply elem_of_list_to_map_2 in Hk.
  rewrite forallb_forall in Hall.
  apply list_elem_of_In in Hk. specialize (Hall _ Hk). simpl in Hall.
  destruct (decide (k = "price_change_24h"%string)); apply Qle_bool_iff; exact Hall.
Qed.

Lemma snapshot_quiet_valid : valid_snapshot snapshot_quiet.
Proof. apply valid_snapshot_list. vm_compute. reflexivity. Qed.

Lemma snapshot_pump_valid : valid_snapshot snapshot_pump.
Proof. apply valid_snapshot_list. vm_compute. reflexivity. Qed.

Lemma social_mild_valid : valid_social social_mild.
Proof. vm_compute. intuition discriminate. Qed.

Section Bounds.

Variable data : market_data.
Hypothesis Hvalid : valid_snapshot data.

Lemma get_nonneg (k : string) (dflt : Q) :
  k <> "price_change_24h"%string -> 0 <= dflt -> 0 <= get data k dflt.
Proof using Hvalid.
  intros Hk Hd. rewrite get_lookup.
  destruct (data !! k) as [v|] eqn:E; [| exact Hd].
  specialize (Hvalid k v E). destruct (decide _); [contradiction | exact Hvalid].
Qed.

Lemma price_change_lower : -100 <= get data "price_change_24h" 0.
Proof using Hvalid.
  rewrite get_lookup.
  destruct (data !! "price_change_24h"%string) as [v|] eqn:E; [| lra].
  specialize (Hvalid _ v E). destruct (decide _); [exact Hvalid | contradiction].
Qed.

Lemma volume_score_bounds : 0 <= volume_score data <= 100.
Proof using Hvalid.
  unfold volume_score. apply min_cap; [| lra].
  apply Qmult_le_0_compat; [| lra].
  apply div_nonneg; [apply get_nonneg; [discriminate | lra] | apply max_one_pos].
Qed.

Lemma holder_score_bounds : 0 <= holder_score data <= 100.
Proof using Hvalid.
  unfold holder_score. apply min_cap; [| lra].
  apply Qmult_le_0_compat; [| lra].
  apply get_nonneg; [discriminate | lra].
Qed.

Lemma liquidity_score_bounds : 0 <= liquidity_score data <= 100.
Proof using Hvalid.
  unfold liquidity_score. apply min_cap; [| lra].
  apply Qmult_le_0_compat; [| lra].
  apply div_nonneg; [apply get_nonneg; [discriminate | lra] | apply max_one_pos].
Qed.

Lemma price_action_lower : 0 <= price_action_score data.
Proof using Hvalid.
  unfold price_action_score. cbv zeta. pose proof price_change_lower. rewrite div_const. name_gets. lra.
Qed.

Lemma price_action_upper :
  get data "price_change_24h" 0 <= 100 -> price_action_score data <= 100.
Proof. unfold price_action_score. cbv zeta. intros H. rewrite div_const. name_gets. lra. Qed.

End Bounds.

Lemma market_score_mean (data : market_data) :
  _calculate_market_score data ==
  (volume_score data + price_action_score data
   + holder_score data + liquidity_score data) / 4.
Proof. unfold _calculate_market_score. simpl app. apply mean4. Qed.

Lemma market_score_bounds (data : market_data) :
  valid_snapshot data ->
  0 <= _calculate_market_score data /\
  (get data "price_change_24h" 0 <= 100 -> _calculate_market_score data <= 100).
Proof.
  intros Hv. rewrite market_score_mean, div_const.
  pose proof (volume_score_bounds data Hv).
  pose proof (holder_score_bounds data Hv).
  pose proof (liquidity_score_bounds data Hv).
  pose proof (price_action_lower data Hv).
  split.
  - lra.
  - intros Hp. pose proof (price_action_upper data Hp). lra.
Qed.

Lemma social_score_bounds (data : social_data) :
  valid_social data -> 0 <= _calculate_social_score data <= 100.
Proof.
  unfold valid_social, _calculate_social_score. cbv zeta.
  set (st := default ∅ (data !! "sentiment_stats"%string)).
  set (p := get st "avg_polarity" 0).
  set (sb := get st "avg_subjectivity" 0.5).
  set (sd := get st "sentiment_std" 0).
  intros (Hp & Hs & Hd).
  assert (Hc : 3 # 4 <= 1 - Qabs (sb - 0.5) * 0.5 <= 1).
  { apply (Qabs_case (sb - 0.5)); intros; lra. }
  assert (Hk : 1 # 2 <= 1 - Qmin sd 0.5 <= 1).
  { pose proof (Q.le_min_r sd 0.5).
    assert (0 <= Qmin sd 0.5) by (apply Q.min_glb; lra). lra. }
  set (c := 1 - Qabs (sb - 0.5) * 0.5) in *.
  set (k := 1 - Qmin sd 0.5) in *.
  assert (Hb : 0 <= 50 + p * 50 <= 100) by lra.
  set (b := 50 + p * 50) in *.
  assert (Hbc : 0 <= b * c <= 100) by nra.
  set (bc := b * c) in *. nra.
Qed.

(** C1, as the code has it: the meta score is 0.6 times the market score plus
    0.4 times the social score, both on their 0-100 scale, with no division
    by 100 and no clamp; for a valid snapshot whose price change is at most
    100 and valid sentiment statistics it lies in [0,100]. *)
Theorem meta_score_weighted (market : market_data) (social : social_data) :
  calculate_meta_score market social ==
    0.6 * _calculate_market_score market + 0.4 * _calculate_social_score social
  /\ (valid_snapshot market ->
      get market "price_change_24h" 0 <= 100 ->
      valid_social social ->
      0 <= calculate_meta_score market social <= 100).
Proof.
  unfold calculate_meta_score. cbv zeta. split.
  - ring.
  - intros Hm Hp Hs.
    destruct (market_score_bounds market Hm) as [Hlo Hhi]. specialize (Hhi Hp).
    pose proof (social_score_bounds social Hs) as Hsoc.
    remember (_calculate_market_score market) as m eqn:Em. clear Em.
    remember (_calculate_social_score social) as s eqn:Es. clear Es.
    split; lra.
Qed.

Lemma meta_score_weighted_witness :
  0 <= calculate_meta_score snapshot_quiet social_mild <= 100.
Proof.
  apply (proj2 (meta_score_weighted snapshot_quiet social_mild)).
  - apply snapshot_quiet_valid.
  - vm_compute. discriminate.
  - apply social_mild_valid.
Defined.

(** C1 as stated fails: on a valid snapshot the meta score is 60.75, which is
    neither the normalised, clamped value nor inside [0,1]. *)
Lemma meta_score_not_normalised :
  valid_snapshot snapshot_quiet /\ valid_social social_mild /\
  calculate_meta_score snapshot_quiet social_mild == 60.75 /\
  ~ (calculate_meta_score snapshot_quiet social_mild ==
       0.6 * (_calculate_market_score snapshot_quiet / 100)
       + 0.4 * (_calculate_social_score social_mild / 100)) /\
  ~ (calculate_meta_score snapshot_quiet social_mild ==
       spec_meta_score snapshot_quiet social_mild) /\
  ~ (0 <= calculate_meta_score snapshot_quiet social_mild <= 1).
Proof.
  split; [apply snapshot_quiet_valid |].
  split; [apply social_mild_valid |].
  split; [vm_compute; reflexivity |].
  split; [vm_compute; discriminate |].
  split; [vm_compute; discriminate |].
  intros [_ H]. revert H. vm_compute. intros H. apply H. reflexivity.
Qed.

(** C2, as the code has it: for a valid snapshot the market score is the mean
    of four sub-scores of which the volume, holder and liquidity ones lie in
    [0,100], while the price-action one is [50 + price_change_24h / 2],
    non-negative but not capped; the market score is non-negative, and it is
    at most 100 when the price change is at most 100. *)
Theorem market_score_price_uncapped (data : market_data) :
  valid_snapshot data ->
  _calculate_market_score data ==
    (volume_score data + price_action_score data
     + holder_score data + liquidity_score data) / 4
  /\ 0 <= volume_score data <= 100
  /\ 0 <= holder_score data <= 100
  /\ 0 <= liquidity_score data <= 100
  /\ price_action_score data == 50 + get data "price_change_24h" 0 / 2
  /\ 0 <= price_action_score data
  /\ 0 <= _calculate_market_score data
  /\ (get data "price_change_24h" 0 <= 100 -> _calculate_market_score data <= 100).
Proof.
  intros Hv.
  split; [apply market_score_mean |].
  split; [apply volume_score_bounds, Hv |].
  split; [apply holder_score_bounds, Hv |].
  split; [apply liquidity_score_bounds, Hv |].
  split; [reflexivity |].
  split; [apply price_action_lower, Hv |].
  apply market_score_bounds, Hv.
Qed.

Lemma market_score_price_uncapped_witness :
  0 <= _calculate_market_score snapshot_quiet <= 100.
Proof.
  destruct (market_score_price_uncapped snapshot_quiet snapshot_quiet_valid)
    as (_ & _ & _ & _ & _ & _ & Hlo & Hhi).
  split; [exact Hlo | apply Hhi; vm_compute; discriminate].
Defined.

(** C2 as stated fails: on a valid snapshot with a price change of +800 the
    price-action sub-score is 450 and the market score 187.5, outside
    [0,100] and different from the mean of the clamped sub-scores. *)
Lemma market_score_exceeds_100 :
  valid_snapshot snapshot_pump /\
  price_action_score snapshot_pump == 450 /\
  _calculate_market_score snapshot_pump == 187.5 /\
  ~ (_calculate_market_score snapshot_pump == spec_market_score snapshot_pump) /\
  ~ (0 <= _calculate_market_score snapshot_pump <= 100).
Proof.
  split; [apply snapshot_pump_valid |].
  split; [vm_compute; reflexivity |].
  split; [vm_compute; reflexivity |].
  split; [vm_compute; discriminate |].
  intros [_ H]. revert H. vm_compute. intros H. apply H. reflexivity.
Qed.

End DataProcessorFacts.

(** ** Predictor *)

Module PredictorFacts.
Import Py PyFacts Predictor.

Example risk_liquid :
  score (_assess_risk confident liquid_market) == 2.5 /\
  level (_assess_risk confident liquid_market) = "low"%string.
Proof. split; vm_compute; reflexivity. Qed.

(** 0.1, 1, 0.8 and 0.8: mean 0.675 *)
Example risk_thin :
  score (_assess_risk confident thin_market) == 67.5 /\
  level (_assess_risk confident thin_market) = "high"%string.
Proof. split; vm_compute; reflexivity. Qed.

Example risk_missing_confidence :
  _assess_risk ∅ thin_market = assess_risk_fallback.
Proof. reflexivity. Qed.

Example risk_level_boundaries :
  risk_level_of 20 = "moderate"%string /\
  risk_level_of 50 = "high"%string /\
  risk_level_of 80 = "very_high"%string /\
  risk_level_of (1999 # 100) = "low"%string /\
  risk_level_of (4999 # 100) = "moderate"%string /\
  risk_level_of (7999 # 100) = "high"%string.
Proof. repeat split; vm_compute; reflexivity. Qed.

Lemma risk_level_thresholds (s : Q) :
  (s < 20 -> risk_level_of s = "low"%string) /\
  (20 <= s -> s < 50 -> risk_level_of s = "moderate"%string) /\
  (50 <= s -> s < 80 -> risk_level_of s = "high"%string) /\
  (80 <= s -> risk_level_of s = "very_high"%string).
Proof.
  unfold risk_level_of.
  destruct (Qlt_le_dec s 20), (Qlt_le_dec s 50), (Qlt_le_dec s 80);
    repeat split; intros; first [reflexivity | lra].
Qed.

Lemma assess_risk_body_raises (predictions market_data : gmap string Q) (e : exn) :
  assess_risk_body predictions market_data = Raise e <->
  predictions !! "trend_confidence"%string = None /\ e = KeyError "trend_confidence".
Proof.
  unfold assess_risk_body, subscript, bind.
  destruct (predictions !! "trend_confidence"%string); split.
  - discriminate.
  - intros [H _]. discriminate.
  - intros H. injection H as <-. split; reflexivity.
  - intros [_ ->]. reflexivity.
Qed.

(** C7: [_assess_risk] always returns.  When the computation succeeds, the
    level is read off the score: below 20 low, from 20 and below 50 moderate,
    from 50 and below 80 high, from 80 on very_high.  When the computation
    raises any exception, the score is 100 and the level unknown. *)
Theorem assess_risk_levels (predictions market_data : gmap string Q) :
  let r := _assess_risk predictions market_data in
  (forall r0, assess_risk_body predictions market_data = Ok r0 ->
     r = r0 /\
     level r = risk_level_of (score r) /\
     (score r < 20 -> level r = "low"%string) /\
     (20 <= score r -> score r < 50 -> level r = "moderate"%string) /\
     (50 <= score r -> score r < 80 -> level r = "high"%string) /\
     (80 <= score r -> level r = "very_high"%string)) /\
  (forall e, assess_risk_body predictions market_data = Raise e ->
     score r = 100 /\ level r = "unknown"%string /\ factors_of r = []).
Proof.
  intros r. subst r. unfold _assess_risk, try_except. split.
  - intros r0 Hbody. rewrite Hbody.
    assert (Hlevel : level r0 = risk_level_of (score r0)).
    { revert Hbody. unfold assess_risk_body, subscript, bind.
      destruct (predictions !! "trend_confidence"%string); [| discriminate].
      intros H. injection H as <-. reflexivity. }
    split; [reflexivity |]. split; [exact Hlevel |].
    rewrite Hlevel. apply risk_level_thresholds.
  - intros e Hbody. rewrite Hbody. repeat split.
Qed.

Lemma assess_risk_levels_witness :
  level (_assess_risk confident thin_market) = "high"%string /\
  level (_assess_risk ∅ thin_market) = "unknown"%string.
Proof.
  split.
  - apply (proj1 (assess_risk_levels confident thin_market) _ eq_refl);
      vm_compute; [discriminate | reflexivity].
  - assert (Hraise : assess_risk_body ∅ thin_market
                      = Raise (KeyError "trend_confidence")) by reflexivity.
    apply (proj2 (assess_risk_levels ∅ thin_market) _ Hraise).
Defined.

Example validate_sound :
  validate_prediction sound_prediction default_threshold = Ok true.
Proof. reflexivity. Qed.

Example validate_unit_scale :
  validate_prediction unit_scale_prediction default_threshold = Ok false.
Proof. reflexivity. Qed.

Example validate_without_confidence :
  validate_prediction
    {| trend_confidence := None; meta_score := Some 60.75; risk_assessment_of := None |}
    default_threshold
  = Raise (KeyError "trend_confidence").
Proof. reflexivity. Qed.

Lemma not_in_high_spec (x : option string) :
  not_in_high x = true <-> x <> Some "high"%string /\ x <> Some "very_high"%string.
Proof.
  destruct x as [l|]; simpl.
  - rewrite negb_true_iff, orb_false_iff.
    split.
    + intros [H1 H2]. split; intros [= ->]; simpl in *; discriminate.
    + intros [H1 H2]. split; apply String.eqb_neq; congruence.
  - split; [intros _; split; discriminate | reflexivity].
Qed.

(** C10: [validate_prediction] returns [True] exactly when the confidence is
    at least the threshold, the meta score (0 when absent) is at least 50 and
    the risk level is neither high nor very_high; hence a prediction whose
    meta score lies in [0,1] is never validated. *)
Theorem validate_prediction_iff (p : prediction) (threshold : Q) :
  (validate_prediction p threshold = Ok true <->
     (exists c, trend_confidence p = Some c /\ threshold <= c) /\
     50 <= default 0 (meta_score p) /\
     level_entry p <> Some "high"%string /\
     level_entry p <> Some "very_high"%string)
  /\ (forall ms, meta_score p = Some ms -> 0 <= ms <= 1 ->
        validate_prediction p threshold <> Ok true).
Proof.
  assert (Hiff : validate_prediction p threshold = Ok true <->
     (exists c, trend_confidence p = Some c /\ threshold <= c) /\
     50 <= default 0 (meta_score p) /\
     level_entry p <> Some "high"%string /\
     level_entry p <> Some "very_high"%string).
  { unfold validate_prediction.
    destruct (trend_confidence p) as [c|].
    - split.
      + intros [= H]. apply andb_true_iff in H as [H Hl].
        apply andb_true_iff in H as [Hc Hm].
        split; [exists c; split; [reflexivity | apply Qle_bool_iff, Hc] |].
        split; [apply Qle_bool_iff, Hm | apply not_in_high_spec, Hl].
      + intros ((c' & [= <-] & Hc) & Hm & Hl).
        f_equal. rewrite !andb_true_iff.
        repeat split; [apply Qle_bool_iff, Hc | apply Qle_bool_iff, Hm |].
        apply not_in_high_spec, Hl.
    - split; [discriminate |]. intros ((c' & [=] & _) & _). }
  split; [exact Hiff |].
  intros ms Hms [_ Hle] Hv. apply Hiff in Hv as (_ & H50 & _).
  rewrite Hms in H50. simpl in H50. lra.
Qed.

Lemma validate_prediction_iff_witness :
  validate_prediction sound_prediction default_threshold = Ok true /\
  validate_prediction unit_scale_prediction default_threshold <> Ok true.
Proof.
  split.
  - apply (proj1 (validate_prediction_iff sound_prediction default_threshold)).
    split; [exists 0.9; split; [reflexivity | vm_compute; discriminate] |].
    split; [vm_compute; discriminate |].
    split; vm_compute; discriminate.
  - apply (proj2 (validate_prediction_iff unit_scale_prediction default_threshold)
             0.6075 eq_refl).
    split; vm_compute; discriminate.
Defined.

End PredictorFacts.

(** ** MetaService: momentum *)

Module MomentumFacts.
Import Py PyFacts MetaService.

Lemma round_half_even_Z (q : Q) (z : Z) :
  q == inject_Z z -> round_half_even q = z.
Proof.
  intros H. unfold round_half_even.
  assert (Hf : Qfloor q = z) by (rewrite H; apply Qfloor_Z).
  rewrite Hf.
  assert (H0 : q - inject_Z z == 0) by (rewrite H; ring).
  assert (Hlt : Qcompare (q - inject_Z z) (1 # 2) = Lt).
  { apply Qlt_alt. rewrite H0. reflexivity. }
  rewrite Hlt. reflexivity.
Qed.

Lemma round2_two_decimals (q : Q) : two_decimals (round2 q).
Proof. exists (round_half_even (q * 100)). reflexivity. Qed.

Lemma round2_id (q : Q) : two_decimals q -> round2 q == q.
Proof.
  intros [z Hz]. unfold round2.
  rewrite (round_half_even_Z (q * 100) z).
  - symmetry. exact Hz.
  - rewrite Hz, div_const. lra.
Qed.

Lemma two_decimals_minus (a b : Q) :
  two_decimals a -> two_decimals b -> two_decimals (a - b).
Proof.
  intros [x Hx] [y Hy]. exists (x - y)%Z.
  unfold Z.sub. rewrite Hx, Hy, inject_Z_plus, inject_Z_opp, !div_const. lra.
Qed.

Lemma Forall_filter {A} (P : A -> Prop) (f : A -> bool) (l : list A) :
  Forall P l -> Forall P (List.filter f l).
Proof.
  induction 1 as [| x l Hx _ IH]; simpl; [constructor |].
  destruct (f x); [constructor; assumption | assumption].
Qed.

Lemma insert_desc_Forall (P : trend -> Prop) (t : trend) (l : list trend) :
  P t -> Forall P l -> Forall P (insert_desc t l).
Proof.
  intros Ht. induction 1 as [| x l Hx Hl IH]; simpl.
  - repeat constructor. exact Ht.
  - destruct (Qlt_le_dec _ _); repeat constructor; assumption.
Qed.

Lemma sorted_desc_Forall (P : trend -> Prop) (l : list trend) :
  Forall P l -> Forall P (sorted_desc l).
Proof.
  unfold sorted_desc. induction 1; simpl; [constructor |].
  apply insert_desc_Forall; assumption.
Qed.

Lemma scores_loop_Forall (P : trend -> Prop) (s : service)
    (counts : gmap string Z) (volumes : gmap string Q) (total : Q)
    (metas : list string) (acc : list trend) :
  (forall meta, P (score_of s counts volumes total meta)) ->
  Forall P acc ->
  Forall P (foldl (append_score s counts volumes total) acc metas).
Proof.
  intros Hscore. revert acc.
  induction metas as [| meta metas IH]; intros acc Hacc; simpl.
  - exact Hacc.
  - apply IH. unfold append_score.
    destruct (0 <? get counts meta 0%Z)%Z; [| exact Hacc].
    apply Forall_app. split; [exact Hacc |].
    repeat constructor. apply Hscore.
Qed.

Lemma trend_scores_two_decimals (s : service)
    (counts : gmap string Z) (volumes : gmap string Q) :
  Forall (fun t => two_decimals (percentage t))
         (_calculate_trend_scores s counts volumes).
Proof.
  unfold _calculate_trend_scores. cbv zeta.
  apply sorted_desc_Forall, scores_loop_Forall; [| constructor].
  intros meta. simpl. apply round2_two_decimals.
Qed.

Lemma record_trend_two_decimals (now : Z)
    (h : gmap string (list history_entry)) (t : trend) :
  two_decimals (percentage t) ->
  history_two_decimals h -> history_two_decimals (record_trend now h t).
Proof.
  intros Ht Hh k l. unfold record_trend. cbv zeta.
  destruct (decide (name t = k)) as [<- | Hne].
  - rewrite lookup_insert_eq. intros [= <-].
    apply Forall_filter, Forall_app. split.
    + rewrite get_lookup. destruct (h !! name t) as [l0|] eqn:E.
      * apply (Hh _ _ E).
      * constructor.
    + repeat constructor. exact Ht.
  - rewrite lookup_insert_ne by exact Hne. apply Hh.
Qed.

Lemma update_history_two_decimals (s : service) (trends : list trend) (now : Z) :
  Forall (fun t => two_decimals (percentage t)) trends ->
  history_two_decimals (_meta_history s) ->
  history_two_decimals (_meta_history (_update_meta_history s trends now)).
Proof.
  unfold _update_meta_history. simpl.
  generalize (_meta_history s). intros h Ht. revert h.
  induction Ht as [| t trends Ht _ IH]; intros h Hh; simpl.
  - exact Hh.
  - apply IH, record_trend_two_decimals; assumption.
Qed.

Lemma reachable_two_decimals (s : service) :
  reachable s -> history_two_decimals (_meta_history s).
Proof.
  induction 1 as [| s f t1 t2 _ IH].
  - intros k l. simpl. rewrite lookup_empty. discriminate.
  - unfold get_meta_trends_finish. simpl.
    apply (update_history_two_decimals s); [apply trend_scores_two_decimals | exact IH].
Qed.

Lemma last_two_rev (history : list history_entry) :
  last_two history =
  match rev history with
  | recent :: previous :: _ => Some (recent, previous)
  | _ => None
  end.
Proof. reflexivity. Qed.

Lemma momentum_rounds_difference (s : service) (key : string) :
  _calculate_momentum s key ==
  round2 (spec_momentum (get (_meta_history s) key [])) \/
  _calculate_momentum s key == spec_momentum (get (_meta_history s) key []).
Proof.
  unfold _calculate_momentum, spec_momentum, last_two. cbv zeta.
  set (history := get (_meta_history s) key []).
  destruct (length history <? 2)%nat eqn:Hlen.
  - right. apply Nat.ltb_lt in Hlen. rewrite <- length_rev in Hlen.
    destruct (rev history) as [| a [| b r]]; simpl in Hlen; [reflexivity .. | lia].
  - destruct (rev history) as [| a [| b r]]; [right; reflexivity .. | left; reflexivity].
Qed.

Example momentum_of_fresh_key : _calculate_momentum init "ai" == 0.
Proof. reflexivity. Qed.

Example history_after_two_refreshes :
  Forall2 Qeq (map h_percentage (get (_meta_history after_two_refreshes) "ai" []))
              [10; 15] /\
  _calculate_momentum after_two_refreshes "ai" == 5.
Proof. split; vm_compute; [repeat constructor | reflexivity]. Qed.

Lemma after_two_refreshes_reachable : reachable after_two_refreshes.
Proof. unfold after_two_refreshes. do 2 apply reachable_finish. apply reachable_init. Qed.

(** C8: for every key of a service produced by [__init__] and refreshes, the
    momentum is the percentage of the most recent history entry minus that
    of the entry before it, and 0 when the key has fewer than two entries. *)
Theorem momentum_is_first_difference (s : service) (key : string) :
  reachable s ->
  _calculate_momentum s key == spec_momentum (get (_meta_history s) key [])
  /\ ((length (get (_meta_history s) key []) < 2)%nat ->
      _calculate_momentum s key == 0)
  /\ (forall older previous recent,
        get (_meta_history s) key [] = older ++ [previous; recent] ->
        _calculate_momentum s key == h_percentage recent - h_percentage previous).
Proof.
  intros Hs. apply reachable_two_decimals in Hs.
  set (history := get (_meta_history s) key []).
  assert (Hall : Forall (fun e => two_decimals (h_percentage e)) history).
  { subst history. rewrite get_lookup.
    destruct (_meta_history s !! key) as [l|] eqn:E; [apply (Hs _ _ E) | constructor]. }
  assert (Hshort : (length history < 2)%nat -> _calculate_momentum s key == 0).
  { intros Hlen. unfold _calculate_momentum. cbv zeta. fold history.
    apply Nat.ltb_lt in Hlen. rewrite Hlen. reflexivity. }
  assert (Hlong : forall older previous recent,
             history = older ++ [previous; recent] ->
             _calculate_momentum s key == h_percentage recent - h_percentage previous).
  { intros older previous recent Hh.
    unfold _calculate_momentum, last_two. cbv zeta. fold history.
    rewrite Hh in Hall |- *.
    replace (length (older ++ [previous; recent]) <? 2)%nat with false
      by (symmetry; apply Nat.ltb_ge; rewrite length_app; simpl; lia).
    rewrite rev_app_distr. simpl.
    apply round2_id, two_decimals_minus.
    - apply Forall_app in Hall as [_ Hall]. inversion Hall as [| ? ? _ Hr]; subst.
      inversion Hr; subst. assumption.
    - apply Forall_app in Hall as [_ Hall]. inversion Hall; subst. assumption. }
  split; [| split; assumption].
  unfold spec_momentum.
  destruct (rev history) as [| a [| b r]] eqn:Hrev.
  - apply Hshort. rewrite <- length_rev, Hrev. simpl. lia.
  - apply Hshort. rewrite <- length_rev, Hrev. simpl. lia.
  - apply (Hlong (rev r)).
    rewrite <- (rev_involutive history), Hrev. simpl.
    rewrite <- app_assoc. reflexivity.
Qed.

Lemma momentum_is_first_difference_witness :
  _calculate_momentum after_two_refreshes "ai" ==
  spec_momentum (get (_meta_history after_two_refreshes) "ai" []).
Proof.
  apply (momentum_is_first_difference after_two_refreshes "ai"
           after_two_refreshes_reachable).
Defined.

End MomentumFacts.

(** ** MetaService: trend scores and buckets *)

Module ClassifierFacts.
Import Py PyFacts MetaService.

Lemma is_trending_spec (t : trend) : is_trending t = true <-> 10 <= percentage t.
Proof. apply Qle_bool_iff. Qed.

Lemma is_rising_spec (t : trend) :
  is_rising t = true <-> 5 <= percentage t /\ percentage t < 10.
Proof.
  unfold is_rising. rewrite andb_true_iff, negb_true_iff, Qle_bool_iff.
  split; intros [H5 H10]; split; try exact H5.
  - apply Qnot_le_lt. intros H. apply Qle_bool_iff in H. congruence.
  - destruct (Qle_bool 10 (percentage t)) eqn:E; [| reflexivity].
    apply Qle_bool_iff in E. lra.
Qed.

Lemma is_declining_spec (t : trend) : is_declining t = true <-> momentum t < 0.
Proof.
  unfold is_declining. rewrite negb_true_iff. split.
  - intros H. apply Qnot_le_lt. intros Hle. apply Qle_bool_iff in Hle. congruence.
  - intros H. destruct (Qle_bool 0 (momentum t)) eqn:E; [| reflexivity].
    apply Qle_bool_iff in E. lra.
Qed.

(** *** The sort *)

Lemma insert_desc_perm (t : trend) (l : list trend) : insert_desc t l ≡ₚ t :: l.
Proof.
  induction l as [| x l IH]; simpl; [reflexivity |].
  destruct (Qlt_le_dec _ _); [| reflexivity].
  rewrite IH. apply Permutation_swap.
Qed.

Lemma sorted_desc_perm (l : list trend) : sorted_desc l ≡ₚ l.
Proof.
  unfold sorted_desc. induction l as [| x l IH]; simpl; [reflexivity |].
  rewrite insert_desc_perm, IH. reflexivity.
Qed.

Lemma insert_desc_sorted (t : trend) (l : list trend) :
  StronglySorted pct_ge l -> StronglySorted pct_ge (insert_desc t l).
Proof.
  induction 1 as [| x l Hl IH Hx]; simpl.
  - repeat constructor.
  - destruct (Qlt_le_dec (percentage t) (percentage x)) as [Hlt | Hle].
    + constructor; [exact IH |].
      rewrite insert_desc_perm. constructor; [| exact Hx].
      unfold pct_ge. lra.
    + constructor; [constructor; assumption |].
      constructor; [exact Hle |].
      eapply Forall_impl; [exact Hx |].
      unfold pct_ge. intros y Hy. simpl in Hy. lra.
Qed.

Lemma sorted_desc_sorted (l : list trend) : StronglySorted pct_ge (sorted_desc l).
Proof.
  unfold sorted_desc. induction l; simpl; [constructor |].
  apply insert_desc_sorted. assumption.
Qed.

Lemma trend_scores_sorted (s : service)
    (counts : gmap string Z) (volumes : gmap string Q) :
  StronglySorted pct_ge (_calculate_trend_scores s counts volumes).
Proof. apply sorted_desc_sorted. Qed.

Lemma scores_loop_names (s : service)
    (counts : gmap string Z) (volumes : gmap string Q) (total : Q)
    (metas : list string) (acc : list trend) :
  names (foldl (append_score s counts volumes total) acc metas) =
  names acc ++ List.filter (fun meta => (0 <? get counts meta 0%Z)%Z) metas.
Proof.
  revert acc. induction metas as [| meta metas IH]; intros acc; simpl.
  - rewrite app_nil_r. reflexivity.
  - rewrite IH. unfold append_score.
    destruct (0 <? get counts meta 0%Z)%Z; [| reflexivity].
    unfold names. rewrite map_app, <- app_assoc. reflexivity.
Qed.

Lemma NoDup_filter_bool {A} (f : A -> bool) (l : list A) :
  NoDup l -> NoDup (List.filter f l).
Proof.
  induction 1 as [| x l Hx _ IH]; simpl; [constructor |].
  destruct (f x); [| exact IH].
  constructor; [| exact IH].
  intros Hin. apply Hx. apply list_elem_of_In in Hin.
  apply filter_In in Hin as [Hin _]. apply list_elem_of_In. exact Hin.
Qed.

(** The names of the scored metas are distinct: each member of the set
    [_known_metas] is scored at most once. *)
Lemma trend_scores_names (s : service)
    (counts : gmap string Z) (volumes : gmap string Q) :
  NoDup (_known_metas s) ->
  NoDup (names (_calculate_trend_scores s counts volumes)).
Proof.
  intros Hnd. unfold _calculate_trend_scores, names. cbv zeta.
  rewrite sorted_desc_perm. fold (names (foldl (append_score s counts volumes
    (total_volume_of volumes)) [] (_known_metas s))).
  rewrite scores_loop_names. simpl. apply NoDup_filter_bool, Hnd.
Qed.

(** *** Filtering and capping a sorted list *)

Lemma StronglySorted_filter {A} (R : relation A) (f : A -> bool) (l : list A) :
  StronglySorted R l -> StronglySorted R (List.filter f l).
Proof.
  induction 1 as [| x l _ IH Hx]; simpl; [constructor |].
  destruct (f x); [| exact IH].
  constructor; [exact IH |].
  apply Forall_forall. intros y Hy. apply list_elem_of_In in Hy.
  apply filter_In in Hy as [Hy _].
  rewrite Forall_forall in Hx. apply Hx, list_elem_of_In, Hy.
Qed.

Lemma StronglySorted_take {A} (R : relation A) (n : nat) (l : list A) :
  StronglySorted R l -> StronglySorted R (take n l).
Proof.
  intros H. revert n. induction H as [| x l _ IH Hx]; intros [| n]; simpl;
    try constructor.
  - apply IH.
  - apply Forall_take. exact Hx.
Qed.

Lemma Forall_take_filter {A} (f : A -> bool) (n : nat) (l : list A) :
  Forall (fun x => f x = true) (take n (List.filter f l)).
Proof.
  apply Forall_take, Forall_forall. intros x Hx.
  apply list_elem_of_In, filter_In in Hx as [_ Hx]. exact Hx.
Qed.

Lemma elem_of_take_filter {A} (f : A -> bool) (n : nat) (l : list A) (x : A) :
  x ∈ take n (List.filter f l) -> x ∈ l /\ f x = true.
Proof.
  intros Hx. apply elem_of_take in Hx as (i & Hi & _).
  apply list_elem_of_lookup_2 in Hi as Hx.
  apply list_elem_of_In, filter_In in Hx as [Hin Hf].
  split; [apply list_elem_of_In, Hin | exact Hf].
Qed.

Lemma NoDup_names_inj (l : list trend) (a b : trend) :
  NoDup (names l) -> a ∈ l -> b ∈ l -> name a = name b -> a = b.
Proof.
  unfold names. induction l as [| x l IH]; simpl; intros Hnd Ha Hb Hab.
  - inversion Ha.
  - apply NoDup_cons in Hnd as [Hx Hnd].
    apply elem_of_cons in Ha as [-> | Ha]; apply elem_of_cons in Hb as [-> | Hb].
    + reflexivity.
    + exfalso. apply Hx. rewrite Hab. apply list_elem_of_fmap. eauto.
    + exfalso. apply Hx. rewrite <- Hab. apply list_elem_of_fmap. eauto.
    + apply IH; assumption.
Qed.

Example example_buckets :
  names (trending (_categorize_trends example_trends)) = ["ai"%string] /\
  names (rising (_categorize_trends example_trends)) = ["meme"%string] /\
  names (declining (_categorize_trends example_trends))
    = ["meme"%string; "gaming"%string].
Proof. repeat split. Qed.

Example example_spec_declining :
  names (spec_declining example_trends) = ["gaming"%string; "meme"%string].
Proof. reflexivity. Qed.

Example unsorted_buckets :
  names (trending (_categorize_trends unsorted_trends)) = ["defi"%string; "ai"%string].
Proof. reflexivity. Qed.

Lemma example_trends_sorted : StronglySorted pct_ge example_trends.
Proof.
  unfold example_trends, pct_ge.
  repeat constructor; simpl; vm_compute; discriminate.
Qed.

Lemma example_trends_names : NoDup (names example_trends).
Proof. apply (bool_decide_unpack _). vm_compute. exact I. Qed.

(** C5, as the code has it: when the category names of the input are
    distinct, as they are in the output of [_calculate_trend_scores], no
    category is in both the trending and the rising bucket.  The declining
    bucket is selected by momentum alone and is not part of the statement. *)
Theorem trending_rising_disjoint (trends : list trend) (n : string) :
  NoDup (names trends) ->
  n ∈ names (trending (_categorize_trends trends)) ->
  n ∉ names (rising (_categorize_trends trends)).
Proof.
  intros Hnd Ht Hr. unfold names in Ht, Hr. simpl in Ht, Hr.
  apply list_elem_of_fmap in Ht as (a & -> & Ha).
  apply list_elem_of_fmap in Hr as (b & Hab & Hb).
  apply elem_of_take_filter in Ha as [Ha Hfa].
  apply elem_of_take_filter in Hb as [Hb Hfb].
  assert (a = b) as -> by (eapply NoDup_names_inj; eassumption).
  apply is_trending_spec in Hfa. apply is_rising_spec in Hfb. lra.
Qed.

Lemma trending_rising_disjoint_witness :
  "ai"%string ∉ names (rising (_categorize_trends example_trends)).
Proof.
  apply (trending_rising_disjoint example_trends "ai" example_trends_names).
  vm_compute. left.
Defined.

(** C5 as stated fails: on the input of the specification, "meme" is in the
    rising bucket and in the declining bucket. *)
Lemma meme_in_two_buckets :
  "meme"%string ∈ names (rising (_categorize_trends example_trends)) /\
  "meme"%string ∈ names (declining (_categorize_trends example_trends)) /\
  ~ disjoint_buckets (_categorize_trends example_trends).
Proof.
  assert (Hr : "meme"%string ∈ names (rising (_categorize_trends example_trends)))
    by (vm_compute; left).
  assert (Hd : "meme"%string ∈ names (declining (_categorize_trends example_trends)))
    by (vm_compute; left).
  split; [exact Hr |]. split; [exact Hd |].
  intros H. destruct (H "meme"%string) as (_ & _ & Hrd). apply Hrd. split; assumption.
Qed.

(** C6, as the code has it: [_calculate_trend_scores] returns its scores in
    descending order of percentage, and on a list in that order each bucket
    is the leading part (5, 4 and 4 elements) of the entries that pass its
    test, in the order of the list: trending those with percentage at
    least 10, rising those from 5 and below 10, declining those with negative
    momentum, all three in descending order of percentage. *)
Theorem buckets_keep_percentage_order :
  (forall s counts volumes,
     StronglySorted pct_ge (_calculate_trend_scores s counts volumes)) /\
  (forall trends, StronglySorted pct_ge trends ->
     let c := _categorize_trends trends in
     (trending c = take 5 (List.filter is_trending trends) /\
      Forall (fun t => 10 <= percentage t) (trending c) /\
      StronglySorted pct_ge (trending c) /\ (length (trending c) <= 5)%nat) /\
     (rising c = take 4 (List.filter is_rising trends) /\
      Forall (fun t => 5 <= percentage t /\ percentage t < 10) (rising c) /\
      StronglySorted pct_ge (rising c) /\ (length (rising c) <= 4)%nat) /\
     (declining c = take 4 (List.filter is_declining trends) /\
      Forall (fun t => momentum t < 0) (declining c) /\
      StronglySorted pct_ge (declining c) /\ (length (declining c) <= 4)%nat)).
Proof.
  split; [apply trend_scores_sorted |].
  intros trends Hs c. subst c. simpl.
  repeat split;
    try (apply StronglySorted_take, StronglySorted_filter, Hs);
    try (rewrite length_take; lia).
  - eapply Forall_impl; [apply Forall_take_filter |].
    intros t. apply is_trending_spec.
  - eapply Forall_impl; [apply Forall_take_filter |].
    intros t. apply is_rising_spec.
  - eapply Forall_impl; [apply Forall_take_filter |].
    intros t. apply is_declining_spec.
Qed.

Lemma buckets_keep_percentage_order_witness :
  StronglySorted pct_ge (declining (_categorize_trends example_trends)).
Proof.
  destruct (proj2 buckets_keep_percentage_order example_trends example_trends_sorted)
    as (_ & _ & _ & _ & Hd & _).
  exact Hd.
Defined.

(** C6 as stated fails: on the input of the specification, which is in
    descending order of percentage, the declining bucket is meme (momentum
    -1) before gaming (momentum -5): not in ascending order of momentum, and
    not the bucket the specification describes. *)
Lemma declining_not_by_momentum :
  names (declining (_categorize_trends example_trends))
    = ["meme"%string; "gaming"%string] /\
  ~ StronglySorted momentum_le (declining (_categorize_trends example_trends)) /\
  declining (_categorize_trends example_trends) <> spec_declining example_trends.
Proof.
  split; [reflexivity |]. split.
  - intros H. inversion H as [| x l _ Hx]; subst.
    inversion Hx as [| y l' Hle _]; subst.
    revert Hle. vm_compute. intros Hle. apply Hle. reflexivity.
  - intros H. apply (f_equal names) in H. discriminate H.
Qed.

End ClassifierFacts.

(** ** MetaService: the cache *)

Module CacheFacts.
Import Py PyFacts MetaService.

Lemma timedelta_seconds_within_day (delta : Z) :
  (0 <= delta < of_days 1)%Z ->
  timedelta_seconds delta = (delta / microseconds_per_second)%Z.
Proof.
  unfold timedelta_seconds, of_days, of_seconds, seconds_per_day,
    microseconds_per_second.
  intros [Hlo Hhi]. apply Z.mod_small. split.
  - apply Z.div_pos; lia.
  - apply Z.div_lt_upper_bound; lia.
Qed.

(** Within a day of the store the check is the intended one. *)
Lemma cache_valid_within_day (s : service) (key : string) (e : cache_entry) (now : Z) :
  _cache s !! key = Some e ->
  (0 <= now - timestamp e < of_days 1)%Z ->
  _is_cache_valid s key now = true <->
  (now - timestamp e < of_seconds (_cache_expiry s))%Z.
Proof.
  intros He Hd. unfold _is_cache_valid. rewrite He. cbv zeta.
  rewrite timedelta_seconds_within_day by exact Hd.
  rewrite Z.ltb_lt. unfold of_seconds, microseconds_per_second. split.
  - intros H.
    destruct (Z_lt_ge_dec (now - timestamp e) (_cache_expiry s * 1000000)) as [Hlt|Hge];
      [exact Hlt |].
    assert (Hq : (_cache_expiry s <= (now - timestamp e) / 1000000)%Z)
      by (apply Z.div_le_lower_bound; lia).
    lia.
  - intros H. apply Z.div_lt_upper_bound; lia.
Qed.

Lemma uncached_is_invalid (s : service) (key : string) (now : Z) :
  _cache s !! key = None -> _is_cache_valid s key now = false.
Proof. unfold _is_cache_valid. intros ->. reflexivity. Qed.

Example six_minutes_later_refetches :
  fetch_calls <$> run (callers init 2) six_minutes_schedule = Some 2%nat.
Proof. vm_compute. reflexivity. Qed.

(** C4 at its failing input: an entry stored at time 0 and read one day and
    ten seconds later, 86410 s after its creation and well past the 300 s,
    still passes [_is_cache_valid], because the check reads the seconds
    component of the age (10) and not the whole age; the second caller is
    served the stored value and no second computation takes place. *)
Theorem stale_entry_served_a_day_later :
  (of_seconds 300 <= day_later - 0)%Z /\
  timedelta_seconds (day_later - 0) = 10%Z /\
  exists w r,
    run (callers init 2) day_later_schedule = Some w /\
    tasks w = [Returned r; Returned r] /\
    fetch_calls w = 1%nat /\
    _is_cache_valid (svc w) cache_key day_later = true.
Proof.
  split; [vm_compute; discriminate |].
  split; [reflexivity |].
  eexists. eexists.
  split; [vm_compute; reflexivity |].
  split; [reflexivity |].
  split; reflexivity.
Qed.

(** *** Callers issued together *)






Example two_calls_one_computation :
  fetch_calls <$> run (callers init 2) (in_turn 0 two_calls) = Some 1%nat.
Proof. vm_compute. reflexivity. Qed.



End CacheFacts.

(** ** Broadcast *)

Module BroadcastFacts.
Import Py Broadcast.

Lemma list_remove_member (c : websocket) (l : list websocket) :
  c ∈ l -> is_Some (list_remove c l).
Proof.
  induction l as [| y l IH]; intros Hc; [inversion Hc |]. simpl.
  destruct (Nat.eqb c y) eqn:E; [eauto |].
  apply Nat.eqb_neq in E. apply elem_of_cons in Hc as [-> | Hc]; [congruence |].
  destruct (IH Hc) as [l' ->]. simpl. eauto.
Qed.

(** A failing subscriber in reach of the loop makes the broadcast raise. *)
Lemma ws_broadcast_from_raises (healthy : websocket -> bool)
    (fuel i : nat) (m : manager) (j : nat) (c : websocket) :
  active_connections m !! j = Some c ->
  healthy c = false ->
  (i <= j < i + fuel)%nat ->
  (ws_broadcast_from healthy fuel i m).1 = Raise TypeError.
Proof.
  revert i m. induction fuel as [| fuel IH]; intros i m Hj Hc Hij; [lia |].
  simpl. destruct (active_connections m !! i) as [d|] eqn:Hi.
  - unfold send_json. destruct (healthy d) eqn:Hd.
    + apply IH; [exact Hj | exact Hc |].
      destruct (decide (i = j)) as [-> | Hne]; [congruence | lia].
    + unfold handler, ws_disconnect.
      destruct (list_remove_member d (active_connections m)) as [l ->];
        [eapply list_elem_of_lookup_2, Hi | reflexivity].
  - apply lookup_ge_None in Hi. apply lookup_lt_Some in Hj. lia.
Qed.

Lemma ws_broadcast_raises (healthy : websocket -> bool) (m : manager) (c : websocket) :
  c ∈ active_connections m -> healthy c = false ->
  (ws_broadcast healthy m).1 = Raise TypeError.
Proof.
  intros Hin Hc. apply list_elem_of_lookup in Hin as [j Hj].
  unfold ws_broadcast. apply (ws_broadcast_from_raises healthy _ 0 m j c Hj Hc).
  apply lookup_lt_Some in Hj. lia.
Qed.

Lemma broadcast_over_raises (healthy : websocket -> bool)
    (pending : list websocket) (m : manager) (c : websocket) :
  (forall d, d ∈ pending -> d ∈ active_connections m) ->
  c ∈ pending -> healthy c = false ->
  (broadcast_over healthy pending (length (active_connections m)) m).1
  = Raise TypeError.
Proof.
  revert m. induction pending as [| d pending IH]; intros m Hsub Hin Hc;
    [inversion Hin |].
  simpl. rewrite Nat.eqb_refl. simpl.
  unfold send_json. destruct (healthy d) eqn:Hd.
  - apply (IH {| active_connections := active_connections m;
                 delivered := delivered m ++ [d] |}).
    + intros d' Hd'. apply Hsub. right. exact Hd'.
    + apply elem_of_cons in Hin as [-> | Hin]; [congruence | exact Hin].
    + exact Hc.
  - unfold handler, disconnect.
    destruct (list_remove_member d (active_connections m)) as [l ->];
      [apply Hsub; left | reflexivity].
Qed.

Lemma broadcast_raises (healthy : websocket -> bool) (m : manager) (c : websocket) :
  c ∈ active_connections m -> healthy c = false ->
  (broadcast healthy m).1 = Raise TypeError.
Proof.
  intros Hin Hc. unfold broadcast.
  apply (broadcast_over_raises healthy _ m c); auto.
Qed.

(** C9 at its failing input: with subscribers 1, 2 and 3 of which 2 fails,
    both managers deliver to 1, remove 2, and then raise [TypeError] out of
    the handler, which awaits the [None] returned by the plain function
    [disconnect]; subscriber 3 never receives the message. *)
Theorem broadcast_stops_at_failure :
  ws_broadcast all_but_2 three_subscribers
    = (Raise TypeError, {| active_connections := [1; 3]%nat; delivered := [1%nat] |}) /\
  broadcast all_but_2 three_subscribers
    = (Raise TypeError, {| active_connections := [1; 3]%nat; delivered := [1%nat] |}) /\
  ~ isolates_failure ws_broadcast [1; 2; 3]%nat 2 /\
  ~ isolates_failure broadcast [1; 2; 3]%nat 2.
Proof.
  split; [reflexivity |]. split; [reflexivity |].
  split; intros H; vm_compute in H; destruct H as [H _]; discriminate H.
Qed.

End BroadcastFacts.

(** ** Helpers: data processing *)

Module HelpersFacts.
Import PyFacts Helpers.

Lemma fold_left_Qplus_acc (l : list Q) (a : Q) :
  fold_left Qplus l a == a + fold_left Qplus l 0.
Proof.
  revert a. induction l as [| x l IH]; intros a; simpl.
  - ring.
  - rewrite (IH (a + x)), (IH (0 + x)). ring.
Qed.

Example moving_average_of_four :
  returns_values (moving_average [1; 2; 3; 4] 2) [1.5; 2.5; 3.5].
Proof. vm_compute. repeat constructor. Qed.

(** With a window of 3 the multiplier is 2 / 4. *)
Example ema_of_five :
  returns_values (exponential_moving_average [1; 2; 3; 5; 7] 3) [2; 3.5; 5.25].
Proof. vm_compute. repeat constructor. Qed.

(** X2: [moving_average] returns short data unchanged, raises
    [ZeroDivisionError] for a zero window whatever the data, and otherwise
    returns one average per full window: [len(data) - window + 1] of them. *)
Theorem moving_average_shape (data : list Q) (window : nat) :
  ((length data < window)%nat -> moving_average data window = Returns data) /\
  (window = O -> moving_average data window = ZeroDivisionError) /\
  ((0 < window <= length data)%nat ->
   exists r, moving_average data window = Returns r /\
             length r = (length data - window + 1)%nat).
Proof.
  unfold moving_average. repeat split.
  - intros H. apply Nat.ltb_lt in H. rewrite H. reflexivity.
  - intros ->. reflexivity.
  - intros [Hpos Hle].
    replace (length data <? window)%nat with false
      by (symmetry; apply Nat.ltb_ge; lia).
    destruct window as [| w]; [lia |].
    eexists. split; [reflexivity |].
    rewrite length_map, length_seq. reflexivity.
Qed.

Lemma moving_average_shape_witness :
  exists r, moving_average [1; 2; 3; 4] 2 = Returns r /\ length r = 3%nat.
Proof.
  apply (proj2 (proj2 (moving_average_shape [1; 2; 3; 4] 2))).
  simpl. lia.
Defined.

Lemma ema_loop_length (m prev : Q) (l : list Q) :
  length (ema_loop m prev l) = length l.
Proof.
  revert prev. induction l as [| x l IH]; intros prev; simpl; [reflexivity |].
  rewrite IH. reflexivity.
Qed.

(** X4: [exponential_moving_average] returns short data unchanged, raises
    [ZeroDivisionError] for a zero window whatever the data, and otherwise
    returns one value for the first full window and one for every later
    element: [len(data) - window + 1] of them. *)
Theorem ema_shape (data : list Q) (window : nat) :
  ((length data < window)%nat ->
   exponential_moving_average data window = Returns data) /\
  (window = O -> exponential_moving_average data window = ZeroDivisionError) /\
  ((0 < window <= length data)%nat ->
   exists r, exponential_moving_average data window = Returns r /\
             length r = (length data - window + 1)%nat).
Proof.
  unfold exponential_moving_average. repeat split.
  - intros H. apply Nat.ltb_lt in H. rewrite H. reflexivity.
  - intros ->. reflexivity.
  - intros [Hpos Hle].
    replace (length data <? window)%nat with false
      by (symmetry; apply Nat.ltb_ge; lia).
    destruct window as [| w]; [lia |].
    eexists. split; [reflexivity |]. cbv zeta.
    simpl length. rewrite ema_loop_length, length_drop. lia.
Qed.

Lemma ema_shape_witness :
  exists r, exponential_moving_average [1; 2; 3; 5; 7] 3 = Returns r /\
            length r = 3%nat.
Proof.
  apply (proj2 (proj2 (ema_shape [1; 2; 3; 5; 7] 3))).
  simpl. lia.
Defined.

End HelpersFacts.

(** ** Helpers: RateLimiter *)

Module RateLimiterFacts.
Import PyFacts RateLimiter.

Lemma after_spec (cutoff t : Q) : after cutoff t = true <-> cutoff < t.
Proof.
  unfold after. rewrite negb_true_iff. split.
  - intros H. apply Qnot_le_lt. intros Hle. apply Qle_bool_iff in Hle. congruence.
  - intros H. destruct (Qle_bool t cutoff) eqn:E; [| reflexivity].
    apply Qle_bool_iff in E. lra.
Qed.

Lemma filter_after_all (cutoff : Q) (l : list Q) :
  Forall (fun t => cutoff < t) l -> List.filter (after cutoff) l = l.
Proof.
  induction 1 as [| x l Hx _ IH]; simpl; [reflexivity |].
  apply after_spec in Hx. rewrite Hx, IH. reflexivity.
Qed.

Lemma filter_after_none (cutoff : Q) (l : list Q) :
  Forall (fun t => t <= cutoff) l -> List.filter (after cutoff) l = [].
Proof.
  induction 1 as [| x l Hx _ IH]; simpl; [reflexivity |].
  destruct (after cutoff x) eqn:E; [| exact IH].
  apply after_spec in E. lra.
Qed.

Lemma filter_after_Forall (cutoff : Q) (l : list Q) :
  Forall (fun t => cutoff < t) (List.filter (after cutoff) l).
Proof.
  apply Forall_forall. intros t Ht.
  apply list_elem_of_In, filter_In in Ht as [_ Ht]. apply after_spec, Ht.
Qed.

Lemma recent_Some (cutoff : Q) (l kept : list Q) :
  recent cutoff l = Some kept ->
  kept = List.filter (after cutoff) l /\ kept <> [].
Proof.
  unfold recent. destruct (List.filter (after cutoff) l); [discriminate |].
  intros [= <-]. split; [reflexivity | discriminate].
Qed.

Lemma cleanup_lookup (rl : rate_limiter) (now : Q) (k : string) :
  requests (_cleanup rl now) !! k = requests rl !! k ≫= recent (now - window rl).
Proof. unfold _cleanup. simpl. apply lookup_omap. Qed.

(** What [_cleanup] leaves recorded for a key. *)
Lemma cleanup_recorded (rl : rate_limiter) (now : Q) (k : string) :
  recorded (_cleanup rl now) k = List.filter (after (now - window rl)) (recorded rl k).
Proof.
  unfold recorded. rewrite !get_lookup, cleanup_lookup.
  destruct (requests rl !! k) as [l|]; simpl; [| reflexivity].
  unfold recent. destruct (List.filter (after (now - window rl)) l); reflexivity.
Qed.

(** The list [check_limit] stores for its key, and its answer. *)
Lemma check_limit_key (rl : rate_limiter) (key : string) (now : Q) :
  let kept := List.filter (after (now - window rl)) (recorded rl key) in
  (check_limit rl key now).1 = (Z.of_nat (length (kept ++ [now])) <=? limit rl)%Z /\
  requests (check_limit rl key now).2 !! key = Some (kept ++ [now]) /\
  limit (check_limit rl key now).2 = limit rl /\
  window (check_limit rl key now).2 = window rl.
Proof.
  intros kept. unfold check_limit. cbv zeta.
  assert (Hget :
    Py.get (match requests (_cleanup rl now) !! key with
            | Some _ => requests (_cleanup rl now)
            | None => <[key:=[]]> (requests (_cleanup rl now))
            end) key [] = kept).
  { subst kept. rewrite <- cleanup_recorded. unfold recorded.
    rewrite !get_lookup.
    destruct (requests (_cleanup rl now) !! key) as [l|] eqn:E.
    - rewrite E. reflexivity.
    - rewrite lookup_insert_eq. reflexivity. }
  rewrite Hget. cbn [fst snd requests limit window set_requests].
  rewrite lookup_insert_eq. repeat split.
Qed.

Lemma check_limit_other (rl : rate_limiter) (key k : string) (now : Q) :
  k <> key ->
  requests (check_limit rl key now).2 !! k
  = requests rl !! k ≫= recent (now - window rl).
Proof.
  intros Hne. unfold check_limit. cbv zeta.
  cbn [fst snd requests limit window set_requests].
  rewrite lookup_insert_ne by congruence.
  destruct (requests (_cleanup rl now) !! key);
    [| rewrite lookup_insert_ne by congruence]; apply cleanup_lookup.
Qed.

Example three_calls_limit_two :
  (check_all (init 2 60) "client" [0; 1; 2]).1 = [true; true; false].
Proof. reflexivity. Qed.

Example call_after_the_window :
  (check_all (init 2 60) "client" [0; 1; 2; 100]).1 = [true; true; false; true].
Proof. reflexivity. Qed.

(** X5: after [check_limit] at time [now], with a positive window, every
    key that is left holds at least one request time, and every request
    time held is later than [now - window]. *)
Theorem check_limit_keeps_recent (rl : rate_limiter) (key k : string)
    (now : Q) (l : list Q) :
  0 < window rl ->
  requests (check_limit rl key now).2 !! k = Some l ->
  l <> [] /\ Forall (fun t => now - window rl < t) l.
Proof.
  intros Hw. destruct (decide (k = key)) as [-> | Hne].
  - destruct (check_limit_key rl key now) as (_ & -> & _). intros [= <-]. split.
    + intros H. apply app_eq_nil in H as [_ H]. discriminate.
    + apply Forall_app. split; [apply filter_after_Forall |].
      repeat constructor. lra.
  - rewrite check_limit_other by exact Hne.
    destruct (requests rl !! k) as [l0|]; simpl; [| discriminate].
    intros H. apply recent_Some in H as [-> Hnil].
    split; [exact Hnil | apply filter_after_Forall].
Qed.

Lemma check_limit_keeps_recent_witness :
  [0; 1] <> [] /\ Forall (fun t => 1 - 60 < t) [0; 1].
Proof.
  apply (check_limit_keeps_recent
           (check_limit (init 2 60) "client" 0).2 "client" "client" 1 [0; 1]).
  - vm_compute. reflexivity.
  - reflexivity.
Defined.

(** X6: [check_limit] answers [True] exactly when the requests of the key
    recorded within the last [window] seconds, the refused ones included,
    together with the present one, number at most [limit]. *)
Theorem check_limit_counts_recorded (rl : rate_limiter) (key : string) (now : Q) :
  (check_limit rl key now).1 = true <->
  (Z.of_nat (length (List.filter (after (now - window rl)) (recorded rl key))) + 1
   <= limit rl)%Z.
Proof.
  destruct (check_limit_key rl key now) as (-> & _).
  rewrite Z.leb_le, length_app. simpl. lia.
Qed.

Lemma check_limit_counts_recorded_witness :
  (check_limit (init 2 60) "client" 0).1 = true.
Proof.
  apply (proj2 (check_limit_counts_recorded (init 2 60) "client" 0)).
  vm_compute. discriminate.
Defined.

Lemma check_all_cons (rl : rate_limiter) (key : string) (now : Q) (rest : list Q) :
  check_all rl key (now :: rest)
  = (let '(ok, rl1) := check_limit rl key now in
     let '(oks, rl2) := check_all rl1 key rest in
     (ok :: oks, rl2)).
Proof. reflexivity. Qed.

Lemma check_all_burst (rl : rate_limiter) (key : string) (times : list Q) :
  forall done,
    recorded rl key = done ->
    within_window (window rl) (done ++ times) ->
    (check_all rl key times).1
    = map (fun i => (Z.of_nat (S (length done + i)) <=? limit rl)%Z)
          (seq 0 (length times)).
Proof.
  revert rl. induction times as [| now times IH]; intros rl done Hdone Hw;
    [reflexivity |].
  rewrite check_all_cons.
  destruct (check_limit_key rl key now) as (Hok & Hreq & Hlim & Hwin).
  assert (Hkept : List.filter (after (now - window rl)) (recorded rl key) = done).
  { rewrite Hdone. apply filter_after_all, Forall_forall. intros t Ht.
    apply Hw; set_solver. }
  rewrite Hkept in Hok, Hreq.
  destruct (check_limit rl key now) as [ok rl'] eqn:E. simpl in Hok, Hreq, Hlim, Hwin.
  specialize (IH rl' (done ++ [now])).
  destruct (check_all rl' key times) as [oks rl''] eqn:E'. simpl in IH |- *.
  rewrite IH.
  - rewrite Hok, Hlim, length_app. simpl. f_equal; [f_equal; lia |].
    rewrite <- seq_shift, map_map. apply map_ext. intros i. do 2 f_equal. lia.
  - unfold recorded. rewrite get_lookup, Hreq. reflexivity.
  - rewrite Hwin, <- app_assoc. exact Hw.
Qed.

(** X7: a burst of calls for a key with nothing recorded, any two of them
    less than [window] apart: the first [limit] calls are allowed and every
    later one is refused. *)
Theorem burst_allows_limit (rl : rate_limiter) (key : string) (times : list Q) :
  recorded rl key = [] ->
  within_window (window rl) times ->
  (check_all rl key times).1
  = map (fun i => (Z.of_nat (S i) <=? limit rl)%Z) (seq 0 (length times)).
Proof.
  intros Hnone Hw. apply (check_all_burst rl key times [] Hnone Hw).
Qed.

Lemma burst_allows_limit_witness :
  (check_all (init 2 60) "client" [0; 1; 2]).1 = [true; true; false].
Proof.
  apply (burst_allows_limit (init 2 60) "client" [0; 1; 2]).
  - reflexivity.
  - intros a b Ha Hb.
    repeat (apply elem_of_cons in Ha as [-> | Ha]);
      repeat (apply elem_of_cons in Hb as [-> | Hb]);
      try (vm_compute; reflexivity); try inversion Ha; inversion Hb.
Defined.

(** X8: once every request recorded for a key is [window] seconds old or
    older, the next call starts afresh: it is allowed whenever [limit] is at
    least 1, and the key then holds that call alone. *)
Theorem quiet_window_resets (rl : rate_limiter) (key : string) (now : Q) :
  Forall (fun t => t <= now - window rl) (recorded rl key) ->
  (check_limit rl key now).1 = (1 <=? limit rl)%Z /\
  requests (check_limit rl key now).2 !! key = Some [now].
Proof.
  intros Hold. destruct (check_limit_key rl key now) as (-> & -> & _).
  rewrite (filter_after_none _ _ Hold). split; reflexivity.
Qed.

Lemma quiet_window_resets_witness :
  (check_limit (check_all (init 2 60) "client" [0; 1; 2]).2 "client" 100).1 = true.
Proof.
  apply (quiet_window_resets (check_all (init 2 60) "client" [0; 1; 2]).2 "client" 100).
  vm_compute. repeat constructor; discriminate.
Defined.

End RateLimiterFacts.

(** ** Connections and broadcast *)

Module ConnectionsFacts.
Import Py Broadcast Connections.

Lemma list_remove_absent (c : websocket) (l : list websocket) :
  c ∉ l -> list_remove c l = None.
Proof.
  induction l as [| y l IH]; intros Hc; simpl; [reflexivity |].
  apply not_elem_of_cons in Hc as [Hne Hc].
  destruct (Nat.eqb c y) eqn:E; [apply Nat.eqb_eq in E; contradiction |].
  rewrite (IH Hc). reflexivity.
Qed.

Lemma list_remove_middle (c : websocket) (pre post : list websocket) :
  c ∉ pre -> list_remove c (pre ++ c :: post) = Some (pre ++ post).
Proof.
  induction pre as [| y pre IH]; intros Hc; simpl.
  - rewrite Nat.eqb_refl. reflexivity.
  - apply not_elem_of_cons in Hc as [Hne Hc].
    destruct (Nat.eqb c y) eqn:E; [apply Nat.eqb_eq in E; contradiction |].
    rewrite (IH Hc). reflexivity.
Qed.

Lemma healthy_not_failing (healthy : websocket -> bool) (c : websocket)
    (pre : list websocket) :
  Forall (fun d => healthy d = true) pre -> healthy c = false -> c ∉ pre.
Proof.
  intros Hpre Hc Hin. rewrite Forall_forall in Hpre.
  specialize (Hpre c Hin). congruence.
Qed.

(** The list loop, from index [i] of a list whose first failing member is
    [c]. *)
Lemma ws_broadcast_from_first_failure (healthy : websocket -> bool)
    (pre post : list websocket) (c : websocket) (fuel i : nat)
    (sent : list websocket) :
  Forall (fun d => healthy d = true) pre -> healthy c = false ->
  (i <= length pre < i + fuel)%nat ->
  ws_broadcast_from healthy fuel i
    {| active_connections := pre ++ c :: post; delivered := sent |}
  = (Raise TypeError,
     {| active_connections := pre ++ post; delivered := sent ++ drop i pre |}).
Proof.
  intros Hpre Hc. revert i sent.
  induction fuel as [| fuel IH]; intros i sent Hi; [lia |].
  simpl ws_broadcast_from. cbn [active_connections].
  destruct (decide (i = length pre)) as [-> | Hne].
  - rewrite list_lookup_middle by reflexivity.
    unfold send_json. rewrite Hc. unfold handler, ws_disconnect.
    cbn [active_connections delivered].
    rewrite list_remove_middle by (eapply healthy_not_failing; eassumption).
    rewrite drop_all, app_nil_r. reflexivity.
  - assert (Hlt : (i < length pre)%nat) by lia.
    destruct (lookup_lt_is_Some_2 pre i Hlt) as [d Hd].
    rewrite lookup_app_l by exact Hlt. rewrite Hd.
    unfold send_json. rewrite Forall_forall in Hpre.
    rewrite (Hpre d) by (eapply list_elem_of_lookup_2, Hd).
    cbn [active_connections delivered].
    rewrite IH by lia.
    rewrite (drop_S pre d i Hd), <- app_assoc. reflexivity.
Qed.

(** The set loop, over what is left to visit of a set whose first failing
    member is [c]. *)
Lemma broadcast_over_first_failure (healthy : websocket -> bool)
    (visited pending post : list websocket) (c : websocket)
    (sent : list websocket) :
  Forall (fun d => healthy d = true) (visited ++ pending) -> healthy c = false ->
  broadcast_over healthy (pending ++ c :: post)
    (length (visited ++ pending ++ c :: post))
    {| active_connections := visited ++ pending ++ c :: post; delivered := sent |}
  = (Raise TypeError,
     {| active_connections := visited ++ pending ++ post;
        delivered := sent ++ pending |}).
Proof.
  intros Hall Hc. revert visited sent Hall.
  induction pending as [| d pending IH]; intros visited sent Hall.
  - simpl. rewrite Nat.eqb_refl. simpl.
    unfold send_json. rewrite Hc. unfold handler, disconnect.
    cbn [active_connections delivered].
    rewrite list_remove_middle.
    + rewrite app_nil_r. reflexivity.
    + rewrite app_nil_r in Hall. eapply healthy_not_failing; eassumption.
  - simpl. rewrite Nat.eqb_refl. simpl.
    unfold send_json. rewrite Forall_forall in Hall.
    rewrite (Hall d) by set_solver.
    cbn [active_connections delivered].
    specialize (IH (visited ++ [d]) (sent ++ [d])).
    rewrite <- !app_assoc in IH. simpl in IH. rewrite IH.
    + reflexivity.
    + apply Forall_forall. intros x Hx. apply Hall. set_solver.
Qed.

Lemma ws_broadcast_from_healthy (healthy : websocket -> bool)
    (conns : list websocket) (fuel i : nat) (sent : list websocket) :
  Forall (fun d => healthy d = true) conns ->
  (length conns <= i + fuel)%nat ->
  ws_broadcast_from healthy fuel i
    {| active_connections := conns; delivered := sent |}
  = (Ok tt, {| active_connections := conns; delivered := sent ++ drop i conns |}).
Proof.
  intros Hall. revert i sent.
  induction fuel as [| fuel IH]; intros i sent Hi.
  - simpl. rewrite drop_ge by lia. rewrite app_nil_r. reflexivity.
  - simpl ws_broadcast_from. cbn [active_connections].
    destruct (conns !! i) as [d|] eqn:Hd.
    + unfold send_json. rewrite Forall_forall in Hall.
      rewrite (Hall d) by (eapply list_elem_of_lookup_2, Hd).
      cbn [active_connections delivered].
      rewrite IH by lia.
      rewrite (drop_S conns d i Hd), <- app_assoc. reflexivity.
    + apply lookup_ge_None in Hd. rewrite drop_ge by lia.
      rewrite app_nil_r. reflexivity.
Qed.

Lemma broadcast_over_healthy (healthy : websocket -> bool)
    (conns pending : list websocket) (sent : list websocket) :
  Forall (fun d => healthy d = true) pending ->
  broadcast_over healthy pending (length conns)
    {| active_connections := conns; delivered := sent |}
  = (Ok tt, {| active_connections := conns; delivered := sent ++ pending |}).
Proof.
  intros Hall. revert sent.
  induction Hall as [| d pending Hd _ IH]; intros sent; simpl;
    rewrite Nat.eqb_refl; simpl.
  - rewrite app_nil_r. reflexivity.
  - unfold send_json. rewrite Hd. cbn [active_connections delivered].
    rewrite IH, <- app_assoc. reflexivity.
Qed.

Example healthy_broadcast :
  ws_broadcast (fun _ => true) three_subscribers
  = (Ok tt, {| active_connections := [1; 2; 3]%nat; delivered := [1; 2; 3]%nat |}).
Proof. reflexivity. Qed.

(** X9: when every subscriber is healthy, the broadcast of either manager
    delivers the message to each subscriber once, in the order of the
    collection, leaves the collection as it is and raises nothing. *)
Theorem broadcast_reaches_all (healthy : websocket -> bool) (m : manager) :
  Forall (fun d => healthy d = true) (active_connections m) ->
  ws_broadcast healthy m
    = (Ok tt, {| active_connections := active_connections m;
                 delivered := delivered m ++ active_connections m |}) /\
  broadcast healthy m
    = (Ok tt, {| active_connections := active_connections m;
                 delivered := delivered m ++ active_connections m |}).
Proof.
  intros Hall. destruct m as [conns sent]. cbn [active_connections delivered] in *.
  split.
  - unfold ws_broadcast. cbn [active_connections].
    rewrite ws_broadcast_from_healthy by (assumption || lia).
    rewrite drop_0. reflexivity.
  - unfold broadcast. cbn [active_connections].
    apply broadcast_over_healthy, Hall.
Qed.

Lemma broadcast_reaches_all_witness :
  broadcast (fun _ => true) three_subscribers
  = (Ok tt, {| active_connections := [1; 2; 3]%nat; delivered := [1; 2; 3]%nat |}).
Proof.
  apply (proj2 (broadcast_reaches_all (fun _ => true) three_subscribers
                  ltac:(repeat constructor))).
Defined.

(** X10: when the collection is [pre ++ c :: post] with every member of
    [pre] healthy and [c] failing, the broadcast of either manager delivers
    to the members of [pre], removes [c], raises [TypeError], and delivers
    to no member of [post]. *)
Theorem broadcast_first_failure (healthy : websocket -> bool)
    (pre post sent : list websocket) (c : websocket) :
  Forall (fun d => healthy d = true) pre ->
  healthy c = false ->
  let m := {| active_connections := pre ++ c :: post; delivered := sent |} in
  let m' := {| active_connections := pre ++ post; delivered := sent ++ pre |} in
  ws_broadcast healthy m = (Raise TypeError, m') /\
  broadcast healthy m = (Raise TypeError, m').
Proof.
  intros Hpre Hc m m'. subst m m'. split.
  - unfold ws_broadcast. cbn [active_connections].
    rewrite (ws_broadcast_from_first_failure healthy pre post c _ 0 sent Hpre Hc).
    + rewrite drop_0. reflexivity.
    + rewrite length_app. simpl. lia.
  - unfold broadcast. cbn [active_connections].
    apply (broadcast_over_first_failure healthy [] pre post c sent); assumption.
Qed.

Lemma broadcast_first_failure_witness :
  ws_broadcast all_but_2 three_subscribers
  = (Raise TypeError, {| active_connections := [1; 3]%nat; delivered := [1%nat] |}).
Proof.
  apply (proj1 (broadcast_first_failure all_but_2 [1%nat] [3%nat] [] 2%nat
                  ltac:(repeat constructor) eq_refl)).
Defined.

(** X11: for a websocket that is not yet in the list, [connect] followed by
    [disconnect] gives the list back; a second [disconnect] of the same
    websocket raises [ValueError]. *)
Theorem ws_connect_disconnect (c : websocket) (m : manager) :
  c ∉ active_connections m ->
  ws_disconnect c (ws_connect c m) = Ok m /\
  bind (ws_disconnect c (ws_connect c m)) (ws_disconnect c) = Raise ValueError.
Proof.
  intros Hc. destruct m as [conns sent]. cbn [active_connections] in Hc.
  assert (H1 : ws_disconnect c (ws_connect c {| active_connections := conns;
                                                delivered := sent |})
               = Ok {| active_connections := conns; delivered := sent |}).
  { unfold ws_disconnect, ws_connect. cbn [active_connections delivered].
    rewrite list_remove_middle by exact Hc. rewrite app_nil_r. reflexivity. }
  split; [exact H1 |]. rewrite H1. unfold bind, ws_disconnect.
  cbn [active_connections]. rewrite list_remove_absent by exact Hc. reflexivity.
Qed.

Lemma ws_connect_disconnect_witness :
  ws_disconnect 4 (ws_connect 4 three_subscribers) = Ok three_subscribers.
Proof.
  apply (proj1 (ws_connect_disconnect 4 three_subscribers
                  ltac:(apply (bool_decide_unpack _); vm_compute; exact I))).
Defined.

(** X12: the end of [websocket_endpoint] for a connected websocket.  After a
    [WebSocketDisconnect] in the receive loop the handler removes the
    websocket and the [finally] block removes it again: the endpoint ends
    with the [KeyError] of [set.remove].  After any other exception in the
    loop the websocket is removed once and nothing is raised. *)
Theorem endpoint_disconnects_twice (c : websocket) (pre post sent : list websocket) :
  c ∉ pre -> c ∉ post ->
  let m := {| active_connections := pre ++ c :: post; delivered := sent |} in
  endpoint_exit ClientDisconnected c m = Raise (KeyError "websocket") /\
  endpoint_exit HandlerError c m
    = Ok {| active_connections := pre ++ post; delivered := sent |}.
Proof.
  intros Hpre Hpost m. subst m.
  assert (H1 : disconnect c {| active_connections := pre ++ c :: post;
                               delivered := sent |}
               = Ok {| active_connections := pre ++ post; delivered := sent |}).
  { unfold disconnect. cbn [active_connections delivered].
    rewrite list_remove_middle by exact Hpre. reflexivity. }
  unfold endpoint_exit. rewrite H1. split; [| reflexivity].
  unfold bind, disconnect. cbn [active_connections].
  rewrite list_remove_absent; [reflexivity |].
  intros Hin. apply elem_of_app in Hin as [Hin | Hin]; contradiction.
Qed.

Lemma endpoint_disconnects_twice_witness :
  endpoint_exit ClientDisconnected 2 three_subscribers = Raise (KeyError "websocket").
Proof.
  apply (proj1 (endpoint_disconnects_twice 2 [1%nat] [3%nat] []
                  ltac:(apply (bool_decide_unpack _); vm_compute; exact I)
                  ltac:(apply (bool_decide_unpack _); vm_compute; exact I))).
Defined.

Lemma broadcast_healthy (healthy : websocket -> bool) (conns sent : list websocket) :
  Forall (fun d => healthy d = true) conns ->
  broadcast healthy {| active_connections := conns; delivered := sent |}
  = (Ok tt, {| active_connections := conns; delivered := sent ++ conns |}).
Proof. intros H. unfold broadcast. cbn [active_connections]. apply broadcast_over_healthy, H. Qed.

(** X28: one pass of [periodic_update].  With every subscriber healthy each
    of them receives the three messages.  With a first failing subscriber
    [c], the pass removes [c] and raises nothing, but nobody receives the
    second and third message of that pass and the subscribers after [c] do
    not receive the first one either. *)
Theorem tick_with_failure (healthy : websocket -> bool)
    (pre post sent : list websocket) (c : websocket) :
  Forall (fun d => healthy d = true) pre ->
  (Forall (fun d => healthy d = true) post ->
   tick healthy {| active_connections := pre ++ post; delivered := sent |}
   = {| active_connections := pre ++ post;
        delivered := sent ++ (pre ++ post) ++ (pre ++ post) ++ (pre ++ post) |}) /\
  (healthy c = false ->
   tick healthy {| active_connections := pre ++ c :: post; delivered := sent |}
   = {| active_connections := pre ++ post; delivered := sent ++ pre |}).
Proof.
  intros Hpre. split.
  - intros Hpost.
    assert (Hall : Forall (fun d => healthy d = true) (pre ++ post))
      by (apply Forall_app; split; assumption).
    unfold tick. rewrite !broadcast_healthy by exact Hall.
    cbn [snd]. rewrite <- !app_assoc. reflexivity.
  - intros Hc. unfold tick, broadcast. cbn [active_connections].
    pose proof (broadcast_over_first_failure healthy [] pre post c sent Hpre Hc) as H.
    rewrite !app_nil_l in H. rewrite H. reflexivity.
Qed.

Lemma tick_with_failure_witness :
  tick all_but_2 three_subscribers
  = {| active_connections := [1; 3]%nat; delivered := [1%nat] |}.
Proof.
  apply (proj2 (tick_with_failure all_but_2 [1%nat] [3%nat] [] 2%nat
                  ltac:(repeat constructor)) eq_refl).
Defined.

End ConnectionsFacts.

(** ** MetaService: cache, history and scores, continued *)

Module ServiceFacts.
Import Py PyFacts MetaService History MomentumFacts ClassifierFacts CacheFacts.

Lemma timedelta_seconds_add_days (delta k : Z) :
  timedelta_seconds (delta + of_days k) = timedelta_seconds delta.
Proof.
  unfold timedelta_seconds, of_days, of_seconds, seconds_per_day,
    microseconds_per_second.
  replace (delta + k * 86400 * 1000000)%Z with (delta + (k * 86400) * 1000000)%Z by lia.
  rewrite Z.div_add by lia. apply Z.mod_add. lia.
Qed.

(** X13: [_is_cache_valid] cannot tell an age from the same age a whole
    number of days later (or earlier): its answer at [now] and at [now]
    plus [k] days is the same. *)
Theorem cache_validity_daily (s : service) (key : string) (now k : Z) :
  _is_cache_valid s key (now + of_days k) = _is_cache_valid s key now.
Proof.
  unfold _is_cache_valid. destruct (_cache s !! key) as [e|]; [| reflexivity].
  cbv zeta.
  replace (now + of_days k - timestamp e)%Z
    with (now - timestamp e + of_days k)%Z by lia.
  rewrite timedelta_seconds_add_days. reflexivity.
Qed.

Lemma finish_cache (s : service) (f : fetched) (t_hist t_store : Z) :
  _cache (get_meta_trends_finish s f t_hist t_store).2 !! cache_key
  = Some {| data := (get_meta_trends_finish s f t_hist t_store).1;
            timestamp := t_store |}.
Proof. unfold get_meta_trends_finish. simpl. apply lookup_insert_eq. Qed.

Lemma finish_expiry (s : service) (f : fetched) (t_hist t_store : Z) :
  _cache_expiry (get_meta_trends_finish s f t_hist t_store).2 = _cache_expiry s.
Proof. reflexivity. Qed.

(** X14: what a completed [get_meta_trends] stored is what the next call
    gets: a call that starts less than [_cache_expiry] seconds after the
    store returns the stored result without a fetch, and a call that starts
    later the same day finds no valid entry and fetches. *)
Theorem stored_result_served (s : service) (f : fetched) (t_hist t_store now : Z) :
  (0 <= _cache_expiry s <= seconds_per_day)%Z ->
  let done := get_meta_trends_finish s f t_hist t_store in
  ((0 <= now - t_store < of_seconds (_cache_expiry s))%Z ->
   get_meta_trends_begin done.2 now = Some done.1) /\
  ((of_seconds (_cache_expiry s) <= now - t_store < of_days 1)%Z ->
   get_meta_trends_begin done.2 now = None).
Proof.
  intros Hexp done. subst done.
  pose proof (finish_cache s f t_hist t_store) as Hc.
  pose proof (cache_valid_within_day _ cache_key _ now Hc) as Hv.
  rewrite finish_expiry in Hv. cbn [timestamp] in Hv.
  unfold get_meta_trends_begin. split; intros Hage.
  - assert (Hd : (0 <= now - t_store < of_days 1)%Z).
    { unfold of_days, of_seconds, seconds_per_day, microseconds_per_second in *. lia. }
    rewrite (proj2 (Hv Hd)) by lia. rewrite Hc. reflexivity.
  - assert (Hd : (0 <= now - t_store < of_days 1)%Z).
    { unfold of_days, of_seconds, seconds_per_day, microseconds_per_second in *. lia. }
    assert (Hn : _is_cache_valid (get_meta_trends_finish s f t_hist t_store).2
                   cache_key now = false).
    { apply not_true_is_false. intros E. apply (Hv Hd) in E. lia. }
    rewrite Hn. reflexivity.
Qed.

Lemma stored_result_served_witness :
  get_meta_trends_begin (get_meta_trends_finish init fetch_10 0 0).2 (of_seconds 299)
  = Some (get_meta_trends_finish init fetch_10 0 0).1.
Proof.
  apply (proj1 (stored_result_served init fetch_10 0 0 (of_seconds 299)
                  ltac:(vm_compute; split; discriminate))).
  vm_compute. split; [discriminate | reflexivity].
Defined.

(** *** Writing the history *)

Lemma record_trend_other (now : Z) (h : gmap string (list history_entry))
    (t : trend) (k : string) :
  k <> name t -> record_trend now h t !! k = h !! k.
Proof. intros Hne. unfold record_trend. cbv zeta. apply lookup_insert_ne. congruence. Qed.

Lemma record_trend_same (now : Z) (h : gmap string (list history_entry)) (t : trend) :
  record_trend now h t !! name t
  = Some (kept now (get h (name t) []) ++ [new_entry now t]).
Proof.
  unfold record_trend. cbv zeta. rewrite lookup_insert_eq. f_equal.
  unfold kept. rewrite List.filter_app. simpl.
  replace (now - of_days 7 <? now)%Z with true; [reflexivity |].
  symmetry. apply Z.ltb_lt. unfold of_days, of_seconds, seconds_per_day,
    microseconds_per_second. lia.
Qed.

Lemma foldl_record_other (now : Z) (trends : list trend)
    (h : gmap string (list history_entry)) (k : string) :
  k ∉ names trends -> foldl (record_trend now) h trends !! k = h !! k.
Proof.
  revert h. induction trends as [| x trends IH]; intros h Hk; simpl; [reflexivity |].
  unfold names in Hk. simpl in Hk. apply not_elem_of_cons in Hk as [Hne Hk].
  rewrite IH by exact Hk. apply record_trend_other. exact Hne.
Qed.

Lemma foldl_record_member (now : Z) (trends : list trend)
    (h : gmap string (list history_entry)) (t : trend) :
  NoDup (names trends) -> t ∈ trends ->
  foldl (record_trend now) h trends !! name t
  = Some (kept now (get h (name t) []) ++ [new_entry now t]).
Proof.
  revert h. induction trends as [| x trends IH]; intros h Hnd Ht; [inversion Ht |].
  unfold names in Hnd. simpl in Hnd. apply NoDup_cons in Hnd as [Hx Hnd].
  simpl. apply elem_of_cons in Ht as [-> | Ht].
  - rewrite foldl_record_other by exact Hx. apply record_trend_same.
  - rewrite (IH _ Hnd Ht). do 3 f_equal.
    rewrite !get_lookup, record_trend_other; [reflexivity |].
    intros Heq. apply Hx. rewrite <- Heq. apply list_elem_of_fmap. eauto.
Qed.

(** X15: [_update_meta_history] on trends with distinct names: the history
    of each trend becomes its entries younger than seven days followed by
    the new entry; the history of every other key is left as it is, entries
    older than seven days included. *)
Theorem update_history_per_key (s : service) (trends : list trend) (now : Z) :
  NoDup (names trends) ->
  (forall t, t ∈ trends ->
     history_of (_update_meta_history s trends now) (name t)
     = kept now (history_of s (name t)) ++ [new_entry now t]) /\
  (forall k, k ∉ names trends ->
     _meta_history (_update_meta_history s trends now) !! k = _meta_history s !! k).
Proof.
  intros Hnd. unfold history_of, _update_meta_history. simpl. split.
  - intros t Ht. rewrite get_lookup, (foldl_record_member _ _ _ t Hnd Ht). reflexivity.
  - intros k Hk. apply foldl_record_other, Hk.
Qed.

Lemma update_history_per_key_witness :
  history_of (_update_meta_history init example_trends 0) "meme"
  = [new_entry 0 (mk_trend "meme" 7 (-1))].
Proof.
  apply (proj1 (update_history_per_key init example_trends 0 example_trends_names)
           (mk_trend "meme" 7 (-1))).
  right. left.
Defined.

(** *** The scores *)

(** X16: [_calculate_trend_scores] scores exactly the members of
    [_known_metas] whose count is positive, each of them once. *)
Theorem scored_metas (s : service) (counts : gmap string Z) (volumes : gmap string Q) :
  names (_calculate_trend_scores s counts volumes)
  ≡ₚ List.filter (fun meta => (0 <? get counts meta 0%Z)%Z) (_known_metas s).
Proof.
  unfold _calculate_trend_scores, names. cbv zeta.
  rewrite sorted_desc_perm.
  fold (names (foldl (append_score s counts volumes (total_volume_of volumes))
                     [] (_known_metas s))).
  rewrite scores_loop_names. reflexivity.
Qed.

Lemma score_of_member (s : service) (counts : gmap string Z) (volumes : gmap string Q)
    (t : trend) :
  t ∈ _calculate_trend_scores s counts volumes ->
  t = score_of s counts volumes (total_volume_of volumes) (name t).
Proof.
  intros Ht.
  assert (Hall : Forall (fun t => t = score_of s counts volumes
                                       (total_volume_of volumes) (name t))
                        (_calculate_trend_scores s counts volumes)).
  { unfold _calculate_trend_scores. cbv zeta.
    apply sorted_desc_Forall, scores_loop_Forall; [| constructor].
    intros meta. reflexivity. }
  rewrite Forall_forall in Hall. apply Hall, Ht.
Qed.

Lemma reachable_known_metas (s : service) :
  reachable s -> _known_metas s = _known_metas init.
Proof. induction 1 as [| s f t1 t2 _ IH]; [reflexivity | exact IH]. Qed.

Lemma init_known_metas : NoDup (_known_metas init).
Proof. apply (bool_decide_unpack _). vm_compute. exact I. Qed.

(** X17: the momentum around a refresh.  The momentum a refresh reports for
    a meta is the one of the history before the refresh.  After the refresh
    the momentum of the meta is its new percentage minus the percentage of
    the youngest earlier entry, if one younger than seven days exists, and 0
    otherwise. *)
Theorem momentum_after_refresh (s : service) (f : fetched) (t_hist t_store : Z)
    (t : trend) :
  reachable s ->
  t ∈ _calculate_trend_scores s (meta_counts f) (meta_volumes f) ->
  let s' := (get_meta_trends_finish s f t_hist t_store).2 in
  momentum t = _calculate_momentum s (name t) /\
  (kept t_hist (history_of s (name t)) = [] ->
   _calculate_momentum s' (name t) == 0) /\
  (forall older e,
     kept t_hist (history_of s (name t)) = older ++ [e] ->
     _calculate_momentum s' (name t) == percentage t - h_percentage e).
Proof.
  intros Hs Ht s'.
  assert (Hhist : get (_meta_history s') (name t) []
                  = kept t_hist (history_of s (name t)) ++ [new_entry t_hist t]).
  { subst s'. unfold get_meta_trends_finish, _update_meta_history. simpl.
    rewrite get_lookup, (foldl_record_member _ _ _ t); [reflexivity | | exact Ht].
    apply trend_scores_names. rewrite (reachable_known_metas s Hs).
    apply init_known_metas. }
  split; [| split].
  - rewrite (score_of_member _ _ _ t Ht) at 1. reflexivity.
  - intros Hnone. unfold _calculate_momentum. cbv zeta.
    rewrite Hhist, Hnone. reflexivity.
  - intros older e Hkept. unfold _calculate_momentum, last_two. cbv zeta.
    rewrite Hhist, Hkept, <- app_assoc. simpl app.
    replace (length (older ++ [e; new_entry t_hist t]) <? 2)%nat with false
      by (symmetry; apply Nat.ltb_ge; rewrite length_app; simpl; lia).
    rewrite rev_app_distr. simpl.
    apply round2_id, two_decimals_minus.
    + pose proof (trend_scores_two_decimals s (meta_counts f) (meta_volumes f)) as Hall.
      rewrite Forall_forall in Hall. apply Hall, Ht.
    + assert (Hall : Forall (fun h => two_decimals (h_percentage h))
                            (kept t_hist (history_of s (name t)))).
      { apply Forall_filter. unfold history_of. rewrite get_lookup.
        destruct (_meta_history s !! name t) as [l|] eqn:E; [| constructor].
        apply (reachable_two_decimals s Hs _ _ E). }
      rewrite Hkept in Hall. apply Forall_app in Hall as [_ Hall].
      inversion Hall; subst. assumption.
Qed.

Lemma momentum_after_refresh_witness :
  _calculate_momentum after_two_refreshes "ai"
  == percentage (score_of (get_meta_trends_finish init fetch_10 0 0).2
                          (meta_counts fetch_15) (meta_volumes fetch_15)
                          (total_volume_of (meta_volumes fetch_15)) "ai")
     - 10.00.
Proof.
  apply (proj2 (proj2 (momentum_after_refresh
           (get_meta_trends_finish init fetch_10 0 0).2 fetch_15
           (of_seconds 60) (of_seconds 60)
           (score_of (get_meta_trends_finish init fetch_10 0 0).2
                     (meta_counts fetch_15) (meta_volumes fetch_15)
                     (total_volume_of (meta_volumes fetch_15)) "ai")
           ltac:(apply reachable_finish, reachable_init)
           ltac:(vm_compute; right; left)))
         [] {| h_timestamp := 0; h_percentage := 10.00; h_volume := 10 |}).
  vm_compute. reflexivity.
Defined.

(** *** The range of the percentages *)

Lemma round_half_even_floor (q : Q) :
  (Qfloor q <= round_half_even q <= Qfloor q + 1)%Z.
Proof.
  unfold round_half_even. cbv zeta.
  destruct (Qcompare _ _); [destruct (Z.even _) | |]; lia.
Qed.

Lemma round_half_even_ge (q : Q) (z : Z) :
  inject_Z z <= q -> (z <= round_half_even q)%Z.
Proof.
  intros H. apply Qfloor_resp_le in H. rewrite Qfloor_Z in H.
  pose proof (round_half_even_floor q). lia.
Qed.

Lemma round_half_even_le (q : Q) (z : Z) :
  q <= inject_Z z -> (round_half_even q <= z)%Z.
Proof.
  intros H. pose proof (Qfloor_resp_le _ _ H) as Hf. rewrite Qfloor_Z in Hf.
  destruct (Z.eq_dec (Qfloor q) z) as [Heq | Hne].
  - assert (Hq : q == inject_Z z).
    { apply Qle_antisym; [exact H |]. rewrite <- Heq. apply Qfloor_le. }
    rewrite (round_half_even_Z q z Hq). lia.
  - pose proof (round_half_even_floor q). lia.
Qed.

Lemma round2_range (q : Q) : 0 <= q <= 100 -> 0 <= round2 q <= 100.
Proof.
  intros [Hlo Hhi]. unfold round2. rewrite div_const.
  assert (H0 : (0 <= round_half_even (q * 100))%Z).
  { apply round_half_even_ge. change (inject_Z 0) with 0. lra. }
  assert (H1 : (round_half_even (q * 100) <= 10000)%Z).
  { apply round_half_even_le. change (inject_Z 10000) with 10000. lra. }
  rewrite Zle_Qle in H0, H1.
  change (inject_Z 0) with 0 in H0. change (inject_Z 10000) with 10000 in H1.
  split; lra.
Qed.

Lemma sum_nonneg_ge (l : list Q) (v : Q) :
  Forall (fun x => 0 <= x) l -> v ∈ l ->
  0 <= fold_left Qplus l 0 /\ v <= fold_left Qplus l 0.
Proof.
  induction 1 as [| x l Hx Hl IH]; intros Hv; [inversion Hv |].
  simpl. rewrite HelpersFacts.fold_left_Qplus_acc.
  assert (Hs : 0 <= fold_left Qplus l 0).
  { clear IH Hv. induction Hl as [| y l Hy _ IH]; simpl; [lra |].
    rewrite HelpersFacts.fold_left_Qplus_acc. lra. }
  apply elem_of_cons in Hv as [-> | Hv].
  - split; lra.
  - destruct (IH Hv). split; lra.
Qed.

Lemma share_in_range (volumes : gmap string Q) (meta : string) :
  volumes_nonneg volumes ->
  0 <= get volumes meta 0 / total_volume_of volumes * 100 <= 100.
Proof.
  intros Hnn. unfold total_volume_of. cbv zeta.
  set (l := map snd (map_to_list volumes)).
  assert (Hl : Forall (fun x => 0 <= x) l).
  { apply Forall_forall. intros x Hx. subst l.
    apply list_elem_of_fmap in Hx as ([k v] & -> & Hkv).
    apply elem_of_map_to_list in Hkv. apply (Hnn k v Hkv). }
  rewrite get_lookup.
  destruct (volumes !! meta) as [v|] eqn:E.
  - assert (Hv : v ∈ l).
    { subst l. apply list_elem_of_fmap. exists (meta, v). split; [reflexivity |].
      apply elem_of_map_to_list, E. }
    destruct (sum_nonneg_ge l v Hl Hv) as [Hs Hle].
    pose proof (Hnn meta v E) as Hv0.
    destruct (Qeq_bool (fold_left Qplus l 0) 0) eqn:Hz.
    + apply Qeq_bool_iff in Hz. assert (Hv1 : v == 0) by lra.
      rewrite Hv1. split; vm_compute; discriminate.
    + assert (Hpos : 0 < fold_left Qplus l 0).
      { apply Qeq_bool_neq in Hz. apply Qle_lteq in Hs as [Hs | Hs]; [exact Hs |].
        exfalso. apply Hz. symmetry. exact Hs. }
      remember (fold_left Qplus l 0) as total eqn:Et. clear Et.
      assert (H0 : 0 <= v / total) by (apply div_nonneg; assumption).
      assert (H1 : v / total <= 1) by (apply Qle_shift_div_r; lra).
      split; lra.
  - destruct (Qeq_bool (fold_left Qplus l 0) 0);
      unfold Qdiv; rewrite Qmult_0_l; split; vm_compute; discriminate.
Qed.

Lemma volumes_nonneg_list (l : list (string * Q)) :
  forallb (fun kv => Qle_bool 0 kv.2) l = true ->
  volumes_nonneg (list_to_map l).
Proof.
  intros Hall k v Hk. apply elem_of_list_to_map_2 in Hk.
  rewrite forallb_forall in Hall. apply list_elem_of_In in Hk.
  specialize (Hall _ Hk). apply Qle_bool_iff. exact Hall.
Qed.

(** X18: when no volume is negative, every percentage that
    [_calculate_trend_scores] returns lies in [0,100], also when the volumes
    sum to zero. *)
Theorem percentages_in_range (s : service)
    (counts : gmap string Z) (volumes : gmap string Q) :
  volumes_nonneg volumes ->
  Forall (fun t => 0 <= percentage t <= 100)
         (_calculate_trend_scores s counts volumes).
Proof.
  intros Hnn. unfold _calculate_trend_scores. cbv zeta.
  apply sorted_desc_Forall, scores_loop_Forall; [| constructor].
  intros meta. unfold score_of. cbv zeta. cbn [percentage].
  apply round2_range, share_in_range, Hnn.
Qed.

Lemma percentages_in_range_witness :
  Forall (fun t => 0 <= percentage t <= 100)
         (_calculate_trend_scores init (meta_counts fetch_10) (meta_volumes fetch_10)).
Proof.
  apply (percentages_in_range init (meta_counts fetch_10) (meta_volumes fetch_10)).
  apply volumes_nonneg_list. vm_compute. reflexivity.
Defined.

End ServiceFacts.

(** ** Predictor, continued *)

Module PipelineFacts.
Import Py PyFacts DataProcessor Predictor Pipeline PredictorFacts.

Lemma max0_range (x : Q) : x <= 1 -> 0 <= Qmax 0 x <= 1.
Proof.
  intros H. split; [apply Q.le_max_l |].
  apply Q.max_lub; [lra | exact H].
Qed.

(** The score of a successful assessment in terms of the factors. *)
Lemma assess_risk_score (predictions market : gmap string Q) (c : Q) :
  predictions !! "trend_confidence"%string = Some c ->
  score (_assess_risk predictions market)
  == ((1 - c) + volume_risk market + holder_risk market + liquidity_risk market)
     / 4 * 100
  /\ level (_assess_risk predictions market)
     = risk_level_of (score (_assess_risk predictions market)).
Proof.
  intros Hc. unfold _assess_risk, assess_risk_body, subscript, bind, try_except.
  rewrite Hc. cbv zeta. cbn [score level values map snd].
  split; [| reflexivity].
  rewrite mean4. reflexivity.
Qed.

Lemma volume_risk_range (market : gmap string Q) :
  field_nonneg market "volume_24h" -> 0 <= volume_risk market <= 1.
Proof.
  intros Hv. unfold volume_risk. apply max0_range.
  assert (0 <= get market "volume_24h" 0 / Qmax (get market "market_cap" 1) 1)
    by (apply div_nonneg; [exact Hv | apply max_one_pos]).
  lra.
Qed.

Lemma holder_risk_range (market : gmap string Q) :
  field_nonneg market "holder_count" -> 0 <= holder_risk market <= 1.
Proof.
  intros Hv. unfold holder_risk, field_nonneg in *. apply max0_range.
  rewrite div_const. name_gets. lra.
Qed.

Lemma liquidity_risk_range (market : gmap string Q) :
  field_nonneg market "liquidity_usd" -> 0 <= liquidity_risk market <= 1.
Proof.
  intros Hv. unfold liquidity_risk, field_nonneg in *. apply max0_range.
  rewrite div_const. name_gets. lra.
Qed.

(** X19: for a confidence in [0,1] and a market whose volume, holder count
    and liquidity are not negative, the risk score lies in [0,100]; and of
    two predictions on the same market the one with the higher confidence
    never gets the higher score. *)
Theorem risk_score_range (predictions predictions' market : gmap string Q) (c c' : Q) :
  field_nonneg market "volume_24h" ->
  field_nonneg market "holder_count" ->
  field_nonneg market "liquidity_usd" ->
  predictions !! "trend_confidence"%string = Some c ->
  predictions' !! "trend_confidence"%string = Some c' ->
  0 <= c <= 1 ->
  0 <= score (_assess_risk predictions market) <= 100 /\
  (c <= c' ->
   score (_assess_risk predictions' market) <= score (_assess_risk predictions market)).
Proof.
  intros Hv Hh Hl Hp Hp' Hc.
  destruct (assess_risk_score predictions market c Hp) as [H1 _].
  destruct (assess_risk_score predictions' market c' Hp') as [H2 _].
  rewrite H1, H2. clear H1 H2.
  pose proof (volume_risk_range market Hv).
  pose proof (holder_risk_range market Hh).
  pose proof (liquidity_risk_range market Hl).
  rewrite !div_const.
  remember (volume_risk market) as v. remember (holder_risk market) as h.
  remember (liquidity_risk market) as l.
  split; [split; lra | intros Hcc; lra].
Qed.

Lemma risk_score_range_witness :
  0 <= score (_assess_risk confident thin_market) <= 100.
Proof.
  apply (risk_score_range confident confident thin_market 0.9 0.9);
    try (apply lookup_singleton_eq); vm_compute; try discriminate.
  split; discriminate.
Defined.

Lemma risk_level_known (s : Q) : risk_level_of s <> "unknown"%string.
Proof.
  unfold risk_level_of.
  destruct (Qlt_le_dec s 20), (Qlt_le_dec s 50), (Qlt_le_dec s 80); discriminate.
Qed.

(** X20: when the predictions carry a number as [trend_confidence],
    [_assess_risk] does not fall back, whichever market fields are missing:
    its level is low, moderate, high or very_high, never unknown. *)
Theorem numeric_confidence_known_level (predictions market : gmap string Q) (c : Q) :
  predictions !! "trend_confidence"%string = Some c ->
  level (_assess_risk predictions market)
    ∈ ["low"; "moderate"; "high"; "very_high"]%string /\
  level (_assess_risk predictions market) <> "unknown"%string.
Proof.
  intros Hc. destruct (assess_risk_score predictions market c Hc) as [_ ->].
  split; [| apply risk_level_known].
  generalize (score (_assess_risk predictions market)). intros sc.
  unfold risk_level_of.
  destruct (Qlt_le_dec sc 20), (Qlt_le_dec sc 50), (Qlt_le_dec sc 80);
    repeat first [left | right].
Qed.

Lemma numeric_confidence_known_level_witness :
  level (_assess_risk confident ∅) <> "unknown"%string.
Proof.
  apply (proj2 (numeric_confidence_known_level confident ∅ 0.9
                  (lookup_singleton_eq _ _))).
Defined.

Lemma level_not_in_high (s : Q) :
  not_in_high (Some (risk_level_of s)) = true <-> s < 50.
Proof.
  unfold risk_level_of.
  destruct (Qlt_le_dec s 20), (Qlt_le_dec s 50), (Qlt_le_dec s 80); simpl;
    split; intros; first [reflexivity | discriminate | lra].
Qed.

Lemma predict_level_entry (predictions : gmap string Q)
    (market : market_data) (social : social_data) :
  level_entry (predict_result predictions market social)
  = Some (level (_assess_risk predictions market)).
Proof. unfold level_entry, predict_result. simpl. apply lookup_singleton_eq. Qed.

(** X21: a result of [predict] passes [validate_prediction] exactly when the
    model's confidence is at least the threshold, the meta score is at
    least 50 and the risk score is below 50. *)
Theorem predict_result_validated (predictions : gmap string Q)
    (market : market_data) (social : social_data) (threshold : Q) :
  validate_prediction (predict_result predictions market social) threshold = Ok true
  <->
  exists c, predictions !! "trend_confidence"%string = Some c /\
            threshold <= c /\
            50 <= calculate_meta_score market social /\
            score (_assess_risk predictions market) < 50.
Proof.
  unfold validate_prediction. rewrite predict_level_entry.
  unfold predict_result. cbn [trend_confidence meta_score default].
  destruct (predictions !! "trend_confidence"%string) as [c|] eqn:E.
  - destruct (assess_risk_score predictions market c E) as [_ Hlevel].
    rewrite Hlevel. split.
    + intros [= H]. apply andb_true_iff in H as [H Hl].
      apply andb_true_iff in H as [Hc Hm].
      exists c. split; [reflexivity |].
      split; [apply Qle_bool_iff, Hc |].
      split; [apply Qle_bool_iff, Hm | apply level_not_in_high, Hl].
    + intros (c0 & [= <-] & Hc & Hm & Hs). f_equal.
      rewrite !andb_true_iff. repeat split.
      * apply Qle_bool_iff, Hc.
      * apply Qle_bool_iff, Hm.
      * apply level_not_in_high, Hs.
  - split; [discriminate |]. intros (c0 & [=] & _).
Qed.

Lemma predict_result_validated_witness :
  validate_prediction
    (predict_result {[ "trend_confidence"%string := 0.9 ]} liquid_market social_mild)
    default_threshold
  = Ok true.
Proof.
  apply (proj2 (predict_result_validated
                  {[ "trend_confidence"%string := 0.9 ]} liquid_market social_mild
                  default_threshold)).
  exists 0.9. split; [reflexivity |].
  repeat split; vm_compute; (discriminate || reflexivity).
Defined.

Lemma max0_of_one (x : Q) : x == 1 -> Qmax 0 x == 1.
Proof.
  intros Hx. destruct (Q.max_spec 0 x) as [[_ H] | [H _]]; [| lra].
  rewrite H. exact Hx.
Qed.

Lemma zero_over (x d : Q) : x == 0 -> 1 - x / d == 1.
Proof. intros Hx. unfold Qdiv. rewrite Hx. ring. Qed.

(** X22: a market without volume, holders and liquidity is never validated:
    whatever the confidence up to 1, its risk score is at least 75, and
    [validate_prediction] answers [False] for the result of [predict]. *)
Theorem dead_market_not_validated (predictions : gmap string Q)
    (market : market_data) (social : social_data) (threshold c : Q) :
  predictions !! "trend_confidence"%string = Some c ->
  c <= 1 ->
  get market "volume_24h" 0 == 0 ->
  get market "holder_count" 0 == 0 ->
  get market "liquidity_usd" 0 == 0 ->
  75 <= score (_assess_risk predictions market) /\
  validate_prediction (predict_result predictions market social) threshold = Ok false.
Proof.
  intros Hc Hle Hv Hh Hl.
  destruct (assess_risk_score predictions market c Hc) as [Hscore Hlevel].
  assert (Hs : 75 <= score (_assess_risk predictions market)).
  { rewrite Hscore.
    assert (H1 : volume_risk market == 1) by (apply max0_of_one, zero_over, Hv).
    assert (H2 : holder_risk market == 1) by (apply max0_of_one, zero_over, Hh).
    assert (H3 : liquidity_risk market == 1) by (apply max0_of_one, zero_over, Hl).
    rewrite H1, H2, H3, div_const. lra. }
  split; [exact Hs |].
  unfold validate_prediction. rewrite predict_level_entry.
  unfold predict_result. cbn [trend_confidence meta_score default].
  rewrite Hc, Hlevel.
  replace (not_in_high (Some (risk_level_of (score (_assess_risk predictions market)))))
    with false; [rewrite andb_false_r; reflexivity |].
  symmetry. apply not_true_is_false. intros H. apply level_not_in_high in H. lra.
Qed.

Lemma dead_market_not_validated_witness :
  validate_prediction
    (predict_result {[ "trend_confidence"%string := 1 ]} dead_market social_mild)
    default_threshold
  = Ok false.
Proof.
  apply (proj2 (dead_market_not_validated
                  {[ "trend_confidence"%string := 1 ]} dead_market social_mild
                  default_threshold 1 (lookup_singleton_eq _ _)
                  ltac:(vm_compute; discriminate)
                  ltac:(vm_compute; reflexivity)
                  ltac:(vm_compute; reflexivity)
                  ltac:(vm_compute; reflexivity))).
Defined.

End PipelineFacts.

(** ** DataProcessor, continued *)

Module ScoreFacts.
Import Py PyFacts DataProcessor DataProcessorFacts.

(** X23: the social score lies in [0,100] for valid sentiment statistics,
    and is the neutral 50 when [social_data] has no [sentiment_stats]. *)
Theorem social_score_range (social : social_data) :
  (valid_social social -> 0 <= _calculate_social_score social <= 100) /\
  (social !! "sentiment_stats"%string = None -> _calculate_social_score social == 50).
Proof.
  split; [apply social_score_bounds |].
  intros Hnone. unfold _calculate_social_score. rewrite Hnone. reflexivity.
Qed.

Lemma social_score_range_witness :
  0 <= _calculate_social_score social_mild <= 100.
Proof.
  apply (proj1 (social_score_range social_mild) social_mild_valid).
Defined.

End ScoreFacts.

(** ** MetaService: the analysis of the fetched tokens *)

Module AnalysisFacts.
Import Py PyFacts MetaService History Analysis MomentumFacts ClassifierFacts ServiceFacts.

Example lower_mixed : lower "BlockChain Capital" = "blockchain capital"%string.
Proof. reflexivity. Qed.

(** "ai" is found inside "blockchain" and inside "capital". *)
Example chain_counts_as_ai :
  _analyze_meta_occurrences init [chain_token; game_token]
  = list_to_map [("ai"%string, 1%Z); ("nft"%string, 1%Z); ("gamefi"%string, 1%Z)].
Proof. vm_compute. reflexivity. Qed.

(** *** A token without a name *)

Lemma occurrences_loop_raises (metas : list string) (tokens : list token)
    (occ : gmap string Z) (tok : token) :
  tok ∈ tokens -> t_name tok = None ->
  exists e, occurrences_loop metas tokens occ = Raise e.
Proof.
  intros Hin Hnone. revert occ.
  induction tokens as [| x tokens IH]; intros occ; [inversion Hin |].
  simpl. unfold text_of. destruct (t_name x) as [n|] eqn:E; simpl.
  - apply elem_of_cons in Hin as [-> | Hin]; [congruence |]. apply IH, Hin.
  - eauto.
Qed.

Lemma volumes_loop_raises (metas : list string) (tokens : list token)
    (vol : gmap string Q) (tok : token) :
  tok ∈ tokens -> t_name tok = None ->
  exists e, volumes_loop metas tokens vol = Raise e.
Proof.
  intros Hin Hnone. revert vol.
  induction tokens as [| x tokens IH]; intros vol; [inversion Hin |].
  simpl. unfold text_of. destruct (t_name x) as [n|] eqn:E; simpl.
  - apply elem_of_cons in Hin as [-> | Hin]; [congruence |]. apply IH, Hin.
  - eauto.
Qed.

Lemma scores_loop_no_counts (s : service) (counts : gmap string Z)
    (volumes : gmap string Q) (total : Q) (metas : list string) (acc : list trend) :
  (forall meta, (get counts meta 0 <= 0)%Z) ->
  foldl (append_score s counts volumes total) acc metas = acc.
Proof.
  intros Hc. revert acc. induction metas as [| meta metas IH]; intros acc; simpl;
    [reflexivity |].
  unfold append_score at 2.
  replace (0 <? get counts meta 0%Z)%Z with false
    by (symmetry; apply Z.ltb_ge, Hc).
  apply IH.
Qed.

Lemma trend_scores_no_counts (s : service) (counts : gmap string Z)
    (volumes : gmap string Q) :
  (forall meta, (get counts meta 0 <= 0)%Z) ->
  _calculate_trend_scores s counts volumes = [].
Proof.
  intros Hc. unfold _calculate_trend_scores. cbv zeta.
  rewrite scores_loop_no_counts by exact Hc. reflexivity.
Qed.

Lemma miss_without_counts (s : service) (f : fetched) (t_hist t_store : Z) :
  meta_counts f = ∅ ->
  (get_meta_trends_finish s f t_hist t_store).1 = no_trends /\
  _meta_history (get_meta_trends_finish s f t_hist t_store).2 = _meta_history s.
Proof.
  intros Hc. unfold get_meta_trends_finish. cbv zeta.
  rewrite trend_scores_no_counts.
  - split; reflexivity.
  - intros meta. rewrite Hc. unfold get. rewrite lookup_empty. simpl. lia.
Qed.

(** X25: when the fetch returns no token, as [_fetch_token_data] in the
    repository does, or when one of the tokens has no [name], both analysis
    passes return an empty dict, whatever the other tokens are;
    [get_meta_trends] then returns three empty buckets and writes nothing to
    the history. *)
Theorem blank_analysis (s : service) (tokens : list token) (t_hist t_store : Z) :
  tokens = _fetch_token_data \/ (exists tok, tok ∈ tokens /\ t_name tok = None) ->
  _analyze_meta_occurrences s tokens = ∅ /\
  _analyze_meta_volumes s tokens = ∅ /\
  (get_meta_trends_miss s tokens t_hist t_store).1 = no_trends /\
  _meta_history (get_meta_trends_miss s tokens t_hist t_store).2 = _meta_history s.
Proof.
  intros H.
  assert (Hocc : _analyze_meta_occurrences s tokens = ∅).
  { unfold _analyze_meta_occurrences.
    destruct H as [-> | (tok & Hin & Hnone)]; [reflexivity |].
    destruct (occurrences_loop_raises (_known_metas s) tokens ∅ tok Hin Hnone)
      as [e ->]. reflexivity. }
  assert (Hvol : _analyze_meta_volumes s tokens = ∅).
  { unfold _analyze_meta_volumes.
    destruct H as [-> | (tok & Hin & Hnone)]; [reflexivity |].
    destruct (volumes_loop_raises (_known_metas s) tokens ∅ tok Hin Hnone)
      as [e ->]. reflexivity. }
  split; [exact Hocc |]. split; [exact Hvol |].
  apply miss_without_counts. exact Hocc.
Qed.

Lemma blank_analysis_witness :
  _analyze_meta_occurrences init [chain_token; nameless_token; game_token] = ∅.
Proof.
  apply (blank_analysis init [chain_token; nameless_token; game_token] 0 0).
  right. exists nameless_token. split; [right; left | reflexivity].
Defined.

(** *** What the counts count *)

Lemma count_meta_get (text : string) (occ : gmap string Z) (meta m : string) :
  get (count_meta text occ meta) m 0%Z
  = (get occ m 0 + (if decide (m = meta) then if contains meta text then 1 else 0 else 0))%Z.
Proof.
  unfold count_meta, get.
  destruct (contains meta text); destruct (decide (m = meta)) as [-> | Hne].
  - rewrite lookup_insert_eq. reflexivity.
  - rewrite lookup_insert_ne by congruence. lia.
  - lia.
  - lia.
Qed.

Lemma count_metas_get (text : string) (metas : list string)
    (occ : gmap string Z) (m : string) :
  NoDup metas ->
  get (foldl (count_meta text) occ metas) m 0%Z
  = (get occ m 0 + (if bool_decide (m ∈ metas) && contains m text then 1 else 0))%Z.
Proof.
  intros Hnd. revert occ.
  induction Hnd as [| meta metas Hnot _ IH]; intros occ; simpl.
  - lia.
  - rewrite IH, count_meta_get.
    destruct (decide (m = meta)) as [-> | Hne].
    + rewrite (bool_decide_eq_false_2 _ Hnot).
      rewrite bool_decide_eq_true_2 by left. simpl. lia.
    + destruct (bool_decide (m ∈ metas)) eqn:E.
      * apply bool_decide_eq_true_1 in E.
        rewrite bool_decide_eq_true_2 by (right; exact E). lia.
      * apply bool_decide_eq_false_1 in E.
        rewrite bool_decide_eq_false_2; [lia |].
        intros Hin. apply elem_of_cons in Hin as [? | ?]; contradiction.
Qed.

Lemma occurrences_loop_counts (metas : list string) (tokens : list token)
    (occ : gmap string Z) :
  NoDup metas -> Forall named tokens ->
  exists occ', occurrences_loop metas tokens occ = Ok occ' /\
    forall m, get occ' m 0%Z
      = (get occ m 0
         + if bool_decide (m ∈ metas)
           then Z.of_nat (length (List.filter (mentions m) tokens)) else 0)%Z.
Proof.
  intros Hnd Hall. revert occ.
  induction Hall as [| tok tokens [n Hn] _ IH]; intros occ.
  - exists occ. split; [reflexivity |]. intros m. simpl.
    destruct (bool_decide _); lia.
  - simpl occurrences_loop. unfold text_of at 1. rewrite Hn. simpl bind.
    destruct (IH (foldl (count_meta (lower (n ++ " " ++ default "" (t_description tok))))
                        occ metas)) as (occ' & Hrun & Hget).
    exists occ'. split; [exact Hrun |]. intros m.
    rewrite Hget, count_metas_get by exact Hnd.
    simpl List.filter. unfold mentions at 2, text_of. rewrite Hn.
    destruct (bool_decide (m ∈ metas)); simpl.
    + destruct (contains m _); simpl length; lia.
    + lia.
Qed.

(** X26: when every token has a name, the count of a known meta is the
    number of tokens whose lower-cased name and description contain the
    meta as a substring, and no other key is counted. *)
Theorem occurrences_count_mentions (s : service) (tokens : list token) (meta : string) :
  NoDup (_known_metas s) ->
  Forall named tokens ->
  get (_analyze_meta_occurrences s tokens) meta 0%Z
  = if bool_decide (meta ∈ _known_metas s)
    then Z.of_nat (length (List.filter (mentions meta) tokens))
    else 0%Z.
Proof.
  intros Hnd Hall. unfold _analyze_meta_occurrences.
  destruct (occurrences_loop_counts (_known_metas s) tokens ∅ Hnd Hall)
    as (occ' & -> & Hget).
  simpl. rewrite Hget. unfold get at 1. rewrite lookup_empty. simpl.
  destruct (bool_decide _); lia.
Qed.

Lemma occurrences_count_mentions_witness :
  get (_analyze_meta_occurrences init [chain_token; game_token]) "ai" 0%Z = 1%Z.
Proof.
  apply (occurrences_count_mentions init [chain_token; game_token] "ai").
  - apply (bool_decide_unpack _). vm_compute. exact I.
  - repeat constructor; eexists; reflexivity.
Defined.

(** *** The volumes and the percentages of the result *)

Lemma add_volume_nonneg (text : string) (volume : Q) (vol : gmap string Q)
    (meta : string) :
  0 <= volume -> volumes_nonneg vol -> volumes_nonneg (add_volume text volume vol meta).
Proof.
  intros Hv Hvol. unfold add_volume. destruct (contains meta text); [| exact Hvol].
  intros k v. destruct (decide (k = meta)) as [-> | Hne].
  - rewrite lookup_insert_eq. intros [= <-]. rewrite get_lookup.
    destruct (vol !! meta) as [v0|] eqn:E.
    + pose proof (Hvol _ _ E). lra.
    + lra.
  - rewrite lookup_insert_ne by congruence. apply Hvol.
Qed.

Lemma add_volumes_nonneg (text : string) (volume : Q) (metas : list string)
    (vol : gmap string Q) :
  0 <= volume -> volumes_nonneg vol ->
  volumes_nonneg (foldl (add_volume text volume) vol metas).
Proof.
  intros Hv. revert vol. induction metas as [| meta metas IH]; intros vol Hvol; simpl.
  - exact Hvol.
  - apply IH, add_volume_nonneg; assumption.
Qed.

Lemma volumes_loop_nonneg (metas : list string) (tokens : list token)
    (vol vol' : gmap string Q) :
  Forall (fun tok => 0 <= default 0 (t_volume_24h tok)) tokens ->
  volumes_nonneg vol ->
  volumes_loop metas tokens vol = Ok vol' ->
  volumes_nonneg vol'.
Proof.
  intros Hall. revert vol.
  induction Hall as [| tok tokens Htok _ IH]; intros vol Hvol; simpl.
  - intros [= <-]. exact Hvol.
  - destruct (text_of tok) as [text | e]; simpl; [| discriminate].
    apply IH, add_volumes_nonneg; assumption.
Qed.

Lemma analysed_volumes_nonneg (s : service) (tokens : list token) :
  Forall (fun tok => 0 <= default 0 (t_volume_24h tok)) tokens ->
  volumes_nonneg (_analyze_meta_volumes s tokens).
Proof.
  intros Hall. unfold _analyze_meta_volumes, try_except.
  destruct (volumes_loop (_known_metas s) tokens ∅) as [vol | e] eqn:E.
  - apply (volumes_loop_nonneg (_known_metas s) tokens ∅ vol Hall); [| exact E].
    intros k v. rewrite lookup_empty. discriminate.
  - intros k v. rewrite lookup_empty. discriminate.
Qed.

Lemma members_of_trends (trends : list trend) (t : trend) :
  t ∈ members (_categorize_trends trends) -> t ∈ trends.
Proof.
  unfold members. simpl. rewrite !elem_of_app.
  intros [H | [H | H]]; apply elem_of_take_filter in H as [H _]; exact H.
Qed.

(** X27: whatever tokens the fetch returns, if none of them has a negative
    volume then no meta gets a negative volume, and every member of the
    three buckets that [get_meta_trends] returns has a percentage in
    [0,100]. *)
Theorem result_percentages_in_range (s : service) (tokens : list token)
    (t_hist t_store : Z) :
  Forall (fun tok => 0 <= default 0 (t_volume_24h tok)) tokens ->
  volumes_nonneg (_analyze_meta_volumes s tokens) /\
  Forall (fun t => 0 <= percentage t <= 100)
         (members (get_meta_trends_miss s tokens t_hist t_store).1).
Proof.
  intros Hall. pose proof (analysed_volumes_nonneg s tokens Hall) as Hnn.
  split; [exact Hnn |].
  apply Forall_forall. intros t Ht.
  unfold get_meta_trends_miss, get_meta_trends_finish in Ht. cbv zeta in Ht.
  cbn [fst] in Ht. apply members_of_trends in Ht.
  assert (Hall' : Forall (fun t => 0 <= percentage t <= 100)
                    (_calculate_trend_scores s (meta_counts (analysed s tokens))
                                               (meta_volumes (analysed s tokens)))).
  { unfold _calculate_trend_scores. cbv zeta.
    apply sorted_desc_Forall, scores_loop_Forall; [| constructor].
    intros meta. unfold score_of. cbv zeta. cbn [percentage].
    apply round2_range, share_in_range. exact Hnn. }
  rewrite Forall_forall in Hall'. apply Hall', Ht.
Qed.

Lemma result_percentages_in_range_witness :
  Forall (fun t => 0 <= percentage t <= 100)
         (members (get_meta_trends_miss init [chain_token; game_token] 0 0).1).
Proof.
  apply (result_percentages_in_range init [chain_token; game_token] 0 0).
  repeat constructor; vm_compute; discriminate.
Defined.

Example two_tokens_result :
  names (trending (get_meta_trends_miss init [chain_token; game_token] 0 0).1)
  = ["nft"%string; "gamefi"%string; "ai"%string].
Proof. vm_compute. reflexivity. Qed.

End AnalysisFacts.
